(** * HTML data collections of lit-analyzer: [src/get-html-collection.ts]

    A shallow embedding of the two collection builders
    [getUserConfigHtmlCollection] and [getBuiltInHtmlCollection] and of the
    type back-fill [addMissingAttrTypes].

    The builders are effectful TypeScript: they allocate memoized type
    accessors ([lazy]), mutate the collection returned by the normalizer,
    read the file system, log, and catch exceptions.  They are embedded in
    a state-and-exception monad [M] over a heap of accessor cells and an
    abstract outside world. *)

From Stdlib Require Import String Ascii List Bool Arith Lia.
Import ListNotations.
Open Scope string_scope.
Open Scope list_scope.

Set Implicit Arguments.
Set Warnings "-register-all".

(** ** Type descriptors ([ts-simple-type]) *)

Inductive SimpleTypeKind : Type :=
| ANY | UNKNOWN | STRING | NUMBER | BOOLEAN | NULL | UNDEFINED
| STRING_LITERAL | UNION.

Definition SimpleTypeKind_eqb (a b : SimpleTypeKind) : bool :=
  match a, b with
  | ANY, ANY | UNKNOWN, UNKNOWN | STRING, STRING | NUMBER, NUMBER
  | BOOLEAN, BOOLEAN | NULL, NULL | UNDEFINED, UNDEFINED
  | STRING_LITERAL, STRING_LITERAL | UNION, UNION => true
  | _, _ => false
  end.

(** [{ kind: k }], [{ kind: STRING_LITERAL, value }] and
    [{ kind: UNION, types }]. *)
Inductive SimpleType : Type :=
| TypeOfKind (k : SimpleTypeKind)
| TypeStringLiteral (value : string)
| TypeUnion (types : list SimpleType).

Definition kind (t : SimpleType) : SimpleTypeKind :=
  match t with
  | TypeOfKind k => k
  | TypeStringLiteral _ => STRING_LITERAL
  | TypeUnion _ => UNION
  end.

(** ** Entities of a collection ([parsing/parse-html-data/html-tag.ts]) *)

(** A type accessor [getType] is a closure made by [lazy]; it is named here
    by the heap location of its memo cell, so that copying an entity with
    an object spread shares the accessor, as in the source. *)
Definition Accessor : Type := nat.

Inductive EntityKind : Type := KAttribute | KProperty | KEvent.

(** [HtmlAttr], [HtmlProp] and [HtmlEvent] have the same fields; optional
    fields of the TypeScript interfaces are [option]s. *)
Record HtmlMember : Type := mkMember {
  mkind : option EntityKind;
  name : string;
  description : option string;
  getType : Accessor;
  fromTagName : option string;
  builtIn : option bool
}.

Definition HtmlAttr : Type := HtmlMember.
Definition HtmlProp : Type := HtmlMember.
Definition HtmlEvent : Type := HtmlMember.

Record HtmlSlot : Type := mkSlot {
  slotName : string;
  slotDescription : option string
}.

Record HtmlTag : Type := mkTag {
  tagName : string;
  tagDescription : option string;
  attributes : list HtmlAttr;
  properties : list HtmlProp;
  events : list HtmlEvent;
  slots : list HtmlSlot;
  tagBuiltIn : option bool
}.

Record HtmlDataCollection : Type := mkCollection {
  tags : list HtmlTag;
  attrs : list HtmlAttr;
  globalEvents : list HtmlEvent
}.

(** Object spreads [{ ...x, field: v }]. *)
Definition with_builtIn (b : bool) (m : HtmlMember) : HtmlMember :=
  mkMember (mkind m) (name m) (description m) (getType m) (fromTagName m)
           (Some b).

Definition with_getType (g : Accessor) (m : HtmlMember) : HtmlMember :=
  mkMember (mkind m) (name m) (description m) g (fromTagName m) (builtIn m).

Definition with_attributes (l : list HtmlAttr) (t : HtmlTag) : HtmlTag :=
  mkTag (tagName t) (tagDescription t) l (properties t) (events t) (slots t)
        (tagBuiltIn t).

Definition with_properties (l : list HtmlProp) (t : HtmlTag) : HtmlTag :=
  mkTag (tagName t) (tagDescription t) (attributes t) l (events t) (slots t)
        (tagBuiltIn t).

(** [{ ...tag, builtIn: true, attributes: l }] *)
Definition with_builtIn_attributes (l : list HtmlAttr) (t : HtmlTag)
  : HtmlTag :=
  mkTag (tagName t) (tagDescription t) l (properties t) (events t) (slots t)
        (Some true).

(** ** Arrays and strings *)

(** [arr.find(p)] followed by a mutation of the element found: the first
    element satisfying [p] is updated in place. *)
Fixpoint update_first {A : Type} (p : A -> bool) (f : A -> A) (l : list A)
  : list A :=
  match l with
  | [] => []
  | x :: rest => if p x then f x :: rest else x :: update_first p f rest
  end.

(** [s.replace(/^on/, "")] *)
Definition strip_on (s : string) : string :=
  match s with
  | String "o"%char (String "n"%char rest) => rest
  | _ => s
  end.

Definition newline : string := String (ascii_of_nat 10) EmptyString.
Definition dquote : string := String (ascii_of_nat 34) EmptyString.

(** ** What the builders are given *)

(** The types that come from outside this module: structured HTML-data
    documents and the contents of the bundled
    [vscode-html-languageservice] data files; the world outside the program
    (file system, working directory, diagnostics sink); JavaScript
    exception values. *)
Class Platform : Type := {
  HtmlData : Type;
  TagData : Type;
  ValueSet : Type;
  World : Type;
  Err : Type
}.

(** [IAttributeData] of the bundled data files. *)
Record AttributeData : Type := mkAttributeData {
  attrDataName : string;
  attrDataDescription : option string
}.

Section Heap.
Context {P : Platform}.

(** A custom data source is a string or an inline document.  The same sum
    is what reaches the normalizer at run time, because a string that does
    not name an existing file is passed on as it is. *)
Inductive DataSource : Type :=
| SourceString (s : string)
| SourceObject (d : HtmlData).

(** [config.customHtmlData]: one source or an array of sources. *)
Inductive CustomHtmlData : Type :=
| OneSource (d : DataSource)
| SourceArray (l : list DataSource).

(** [Config] of [state/config.ts], the fields read here. *)
Record Config : Type := mkConfig {
  customHtmlData : CustomHtmlData;
  globalHtmlTags : list string;
  globalHtmlAttributes : list string;
  globalHtmlEvents : list string
}.

(** The memo cell of one accessor: not yet called, or called with the
    value it returned. *)
Inductive Cell : Type :=
| Pending (func : World -> SimpleType)
| Cached (value : SimpleType).

Record State : Type := mkState {
  cells : nat -> Cell;
  next : nat;
  world : World
}.

Inductive result (A : Type) : Type :=
| Ok (a : A)
| Throw (e : Err).
Arguments Ok {A} a.
Arguments Throw {A} e.

(** Computations that read and write the state and may throw; the state
    reached when an exception is thrown is kept. *)
Definition M (A : Type) : Type := State -> result A * State.

Definition ret {A : Type} (a : A) : M A := fun s => (Ok a, s).

Definition bind {A B : Type} (m : M A) (f : A -> M B) : M B :=
  fun s =>
    match m s with
    | (Ok a, s') => f a s'
    | (Throw e, s') => (Throw e, s')
    end.

(** [try { m } catch (e) { h e }] *)
Definition try_catch {A : Type} (m : M A) (h : Err -> M A) : M A :=
  fun s =>
    match m s with
    | (Ok a, s') => (Ok a, s')
    | (Throw e, s') => h e s'
    end.

Definition of_result {A : Type} (r : result A) : M A := fun s => (r, s).

Definition read_world {A : Type} (f : World -> A) : M A :=
  fun s => (Ok (f (world s)), s).

Definition update_world (f : World -> World) : M unit :=
  fun s => (Ok tt, mkState (cells s) (next s) (f (world s))).

(** [arr.map(f)] for an effectful [f], left to right. *)
Fixpoint mapM {A B : Type} (f : A -> M B) (l : list A) : M (list B) :=
  match l with
  | [] => ret []
  | x :: rest =>
      bind (f x) (fun y => bind (mapM f rest) (fun ys => ret (y :: ys)))
  end.

Definition set_cell (h : nat -> Cell) (l : nat) (c : Cell) : nat -> Cell :=
  fun l' => if Nat.eqb l' l then c else h l'.

(** Modelled from the spec: [lazy] of [util/util.ts], which is not among
    the sources.  The spec describes it as a deferred computation cell that
    computes its value on first evaluation and returns the cached value
    thereafter.  [lazy f] allocates a new cell holding [f]; [call l] is the
    call [getType()] of the accessor [l]. *)
Definition lazy (f : World -> SimpleType) : M Accessor :=
  fun s =>
    (Ok (next s),
     mkState (set_cell (cells s) (next s) (Pending f)) (S (next s))
             (world s)).

Definition call (l : Accessor) : M SimpleType :=
  fun s =>
    match cells s l with
    | Cached v => (Ok v, s)
    | Pending f =>
        let v := f (world s) in
        (Ok v, mkState (set_cell (cells s) l (Cached v)) (next s) (world s))
    end.

(** What a call of [l] in state [s] returns, without performing it. *)
Definition resolved (s : State) (l : Accessor) : SimpleType :=
  match cells s l with
  | Cached v => v
  | Pending f => f (world s)
  end.

(** The same heap in a changed world. *)
Definition in_world (w : World) (s : State) : State :=
  mkState (cells s) (next s) w.

End Heap.

Arguments Ok {P A} a.
Arguments Throw {P A} e.

Notation "x <- m ;; k" := (bind m (fun x => k))
  (at level 61, m at next level, right associativity).
Notation "m ;;; k" := (bind m (fun _ => k))
  (at level 61, right associativity).

(** The collaborators of the builders (spec, section 6): file system,
    JSON, logger, the Spec Data Normalizer [parseHtmlData], the Merge
    Engine [mergeHtml...], the Type Resolver, and the baseline data.  The
    normalizer and the merge functions make accessors of their own and may
    throw, so they run in [M]; the Type Resolver is a pure function of the
    name. *)
Class Externals {P : Platform} : Type := {
  existsSync : string -> World -> bool;
  readFileSync : string -> World -> result string;
  JSON_parse : string -> result DataSource;
  process_cwd : World -> string;
  join : string -> string -> string;
  logger_debug : DataSource -> option string -> string -> World -> World;
  logger_error : string -> Err -> World -> World;
  parseHtmlData : DataSource -> M HtmlDataCollection;
  mergeHtmlTags : list HtmlTag -> M (list HtmlTag);
  mergeHtmlAttrs : list HtmlAttr -> M (list HtmlAttr);
  mergeHtmlEvents : list HtmlEvent -> M (list HtmlEvent);
  hasTypeForAttrName : string -> bool;
  html5TagAttrType : string -> SimpleType;
  (** the object literal [{ version: 1, tags, globalAttributes, valueSets }] *)
  html_data_v1 : list TagData -> list AttributeData -> list ValueSet
                 -> HtmlData;
  HTML5_TAGS : list TagData;
  HTML5_GLOBAL_ATTRIBUTES : list AttributeData;
  HTML5_EVENTS : list AttributeData;
  ARIA_ATTRIBUTES : list AttributeData;
  HTML5_VALUE_MAP : list ValueSet
}.

Section Builders.
Context {P : Platform} {X : Externals}.

(** ** [addMissingAttrTypes] (lines 221-233) *)

(** The condition of line 223; [||] calls [getType] only when the resolver
    does not know the name. *)
Definition needs_resolver_type (attr : HtmlAttr) : M bool :=
  if hasTypeForAttrName (name attr) then ret true
  else t <- call (getType attr) ;; ret (SimpleTypeKind_eqb (kind t) ANY).

Definition addMissingAttrType (attr : HtmlAttr) : M HtmlAttr :=
  replace <- needs_resolver_type attr ;;
  if replace then
    let newType := html5TagAttrType (name attr) in
    g <- lazy (fun _ => newType) ;;
    ret (with_getType g attr)
  else ret attr.

Definition addMissingAttrTypes (attrs : list HtmlAttr) : M (list HtmlAttr) :=
  mapM addMissingAttrType attrs.

(** ** [getUserConfigHtmlCollection] (lines 16-70) *)

(** Line 19: [Array.isArray(c) ? c : [c]]. *)
Definition sources_of (c : CustomHtmlData) : list DataSource :=
  match c with
  | SourceArray l => l
  | OneSource d => [d]
  end.

(** Line 22: a string naming an existing file is read and parsed as JSON;
    anything else is the data itself. *)
Definition resolve_source (customHtmlData : DataSource) : M DataSource :=
  match customHtmlData with
  | SourceString s =>
      found <- read_world (existsSync s) ;;
      if found then
        text <- (fun st => (readFileSync s (world st), st)) ;;
        of_result (JSON_parse text)
      else ret customHtmlData
  | SourceObject _ => ret customHtmlData
  end.

(** The body of the [try] block, lines 21-28. *)
Definition merge_source (collection : HtmlDataCollection)
    (customHtmlData : DataSource) : M HtmlDataCollection :=
  cwd <- read_world process_cwd ;;
  update_world
    (logger_debug customHtmlData
       (match customHtmlData with
        | SourceString s => Some (join cwd s)
        | SourceObject _ => None
        end)
       cwd) ;;;
  data <- resolve_source customHtmlData ;;
  parsedCollection <- parseHtmlData data ;;
  tags' <- mergeHtmlTags (tags collection ++ tags parsedCollection) ;;
  attrs' <- mergeHtmlAttrs (attrs collection ++ attrs parsedCollection) ;;
  events' <- mergeHtmlEvents
               (globalEvents collection ++ globalEvents parsedCollection) ;;
  ret (mkCollection tags' attrs' events').

(** One iteration of the loop of line 19: the [try] block and its [catch],
    which logs and leaves [collection] as it is. *)
Definition try_source (collection : HtmlDataCollection)
    (customHtmlData : DataSource) : M HtmlDataCollection :=
  try_catch
    (merge_source collection customHtmlData)
    (fun e =>
       update_world
         (logger_error "Error parsing user configuration 'customHtmlData'" e)
       ;;; ret collection).

Fixpoint for_each_source (sources : list DataSource)
    (collection : HtmlDataCollection) : M HtmlDataCollection :=
  match sources with
  | [] => ret collection
  | customHtmlData :: rest =>
      collection' <- try_source collection customHtmlData ;;
      for_each_source rest collection'
  end.

Definition empty_collection : HtmlDataCollection := mkCollection [] [] [].

(** Lines 36-45, 47-54, 56-63: the entities made from the flat name
    lists. *)
Definition global_tag (tagName : string) : HtmlTag :=
  mkTag tagName None [] [] [] [] None.

Definition global_attr (attrName : string) : M HtmlAttr :=
  g <- lazy (fun _ => TypeOfKind ANY) ;;
  ret (mkMember (Some KAttribute) attrName None g None None).

Definition global_event (eventName : string) : M HtmlEvent :=
  g <- lazy (fun _ => TypeOfKind ANY) ;;
  ret (mkMember (Some KEvent) eventName None g None None).

Definition getUserConfigHtmlCollection (config : Config)
  : M HtmlDataCollection :=
  collection <- for_each_source (sources_of (customHtmlData config))
                                empty_collection ;;
  let tags0 := map global_tag (globalHtmlTags config) in
  attrs0 <- mapM global_attr (globalHtmlAttributes config) ;;
  events0 <- mapM global_event (globalHtmlEvents config) ;;
  ret (mkCollection (tags0 ++ tags collection)
                    (attrs0 ++ attrs collection)
                    (events0 ++ globalEvents collection)).

(** ** [getBuiltInHtmlCollection] (lines 72-219) *)

Definition push_tag (t : HtmlTag) (result : HtmlDataCollection)
  : HtmlDataCollection :=
  mkCollection (tags result ++ [t]) (attrs result) (globalEvents result).

Definition push_attr (a : HtmlAttr) (result : HtmlDataCollection)
  : HtmlDataCollection :=
  mkCollection (tags result) (attrs result ++ [a]) (globalEvents result).

Definition push_event (e : HtmlEvent) (result : HtmlDataCollection)
  : HtmlDataCollection :=
  mkCollection (tags result) (attrs result) (globalEvents result ++ [e]).

(** [result.tags.find(t => t.tagName === n)], then a mutation [f] of the
    tag found. *)
Definition has_tagName (n : string) (t : HtmlTag) : bool :=
  String.eqb (tagName t) n.

Definition update_tag (n : string) (f : HtmlTag -> HtmlTag)
    (result : HtmlDataCollection) : HtmlDataCollection :=
  mkCollection (update_first (has_tagName n) f (tags result))
               (attrs result) (globalEvents result).

Definition slotchange_description : string :=
  "The slotchange event is fired on an HTMLSlotElement instance (<slot> element) when the node(s) contained in that slot change."
  ++ newline ++ newline ++
  "Note: the slotchange event doesn't fire if the children of a slotted node change — only if you change (e.g. add or delete) the actual nodes themselves.".

Definition playsinline_description : string :=
  "The playsinline attribute is a boolean attribute. If present, it serves as a hint to the user agent that the video ought to be displayed "
  ++ dquote ++ "inline" ++ dquote ++
  " in the document by default, constrained to the element's playback area, instead of being displayed fullscreen or in an independent resizable window.".

(** Lines 80-87. *)
Definition svg_tag : HtmlTag :=
  mkTag "svg" (Some EmptyString) [] [] [] [] None.

(** Lines 89-120. *)
Definition push_slot_tag (result : HtmlDataCollection)
  : M HtmlDataCollection :=
  g_event <- lazy (fun _ => TypeOfKind ANY) ;;
  g_name <- lazy (fun _ => TypeOfKind STRING) ;;
  g_on <- lazy (fun _ => TypeOfKind STRING) ;;
  ret (push_tag
         (mkTag "slot" (Some EmptyString)
            [ mkMember (Some KAttribute) "name" None g_name (Some "slot")
                       (Some true);
              mkMember (Some KAttribute) "onslotchange" None g_on
                       (Some "slot") (Some true) ]
            []
            [ mkMember None "slotchange" (Some slotchange_description)
                       g_event (Some "slot") (Some true) ]
            []
            None)
         result).

(** Lines 122-127. *)
Definition push_slot_attr (result : HtmlDataCollection)
  : M HtmlDataCollection :=
  g <- lazy (fun _ => TypeOfKind STRING) ;;
  ret (push_attr (mkMember (Some KAttribute) "slot" None g None (Some true))
                 result).

(** Lines 129-144 for ["textarea"] and 146-161 for ["input"]: the same
    code for the two tag names. *)
Definition push_value_property (n : string) (result : HtmlDataCollection)
  : M HtmlDataCollection :=
  match find (has_tagName n) (tags result) with
  | Some _ =>
      g <- lazy (fun _ => TypeUnion [TypeOfKind STRING; TypeOfKind NULL]) ;;
      ret (update_tag n
             (fun t =>
                with_properties
                  (properties t ++
                   [mkMember (Some KProperty) "value" None g (Some n)
                             (Some true)])
                  t)
             result)
  | None => ret result
  end.

(** Lines 163-175. *)
Definition patch_audio (result : HtmlDataCollection)
  : M HtmlDataCollection :=
  match find (has_tagName "audio") (tags result) with
  | Some _ =>
      g <- lazy (fun _ => TypeOfKind STRING) ;;
      ret (update_tag "audio"
             (fun t =>
                with_attributes
                  (attributes t ++
                   [mkMember (Some KAttribute) "controlslist" None g
                             (Some "audio") (Some true)])
                  t)
             result)
  | None => ret result
  end.

(** Lines 177-198. *)
Definition patch_video (result : HtmlDataCollection)
  : M HtmlDataCollection :=
  match find (has_tagName "video") (tags result) with
  | Some _ =>
      g_controlslist <- lazy (fun _ => TypeOfKind STRING) ;;
      g_playsinline <- lazy (fun _ => TypeOfKind BOOLEAN) ;;
      ret (update_tag "video"
             (fun t =>
                with_attributes
                  (attributes t ++
                   [ mkMember (Some KAttribute) "controlslist" None
                              g_controlslist (Some "video") (Some true);
                     mkMember (Some KAttribute) "playsinline"
                              (Some playsinline_description)
                              g_playsinline (Some "video") (Some true) ])
                  t)
             result)
  | None => ret result
  end.

(** Lines 200-207. *)
Fixpoint push_global_events (l : list AttributeData)
    (result : HtmlDataCollection) : M HtmlDataCollection :=
  match l with
  | [] => ret result
  | globalEvent :: rest =>
      g <- lazy (fun _ => TypeOfKind ANY) ;;
      push_global_events rest
        (push_event
           (mkMember None (strip_on (attrDataName globalEvent))
                     (attrDataDescription globalEvent) g None (Some true))
           result)
  end.

(** Lines 211-215: what [result.tags.map] does with one tag. *)
Definition finish_tag (tag : HtmlTag) : M HtmlTag :=
  attributes' <- addMissingAttrTypes
                   (map (with_builtIn true) (attributes tag)) ;;
  ret (with_builtIn_attributes attributes' tag).

(** Lines 209-218. *)
Definition finish (result : HtmlDataCollection) : M HtmlDataCollection :=
  tags' <- mapM finish_tag (tags result) ;;
  attrs' <- addMissingAttrTypes (map (with_builtIn true) (attrs result)) ;;
  ret (mkCollection tags' attrs'
                    (map (with_builtIn true) (globalEvents result))).

(** Lines 73-78. *)
Definition baseline : DataSource :=
  SourceObject
    (html_data_v1 HTML5_TAGS
       (HTML5_GLOBAL_ATTRIBUTES ++ HTML5_EVENTS ++ ARIA_ATTRIBUTES)
       HTML5_VALUE_MAP).

(** Lines 80-207: the manual patches, in the order of the source. *)
Definition patch (result : HtmlDataCollection) : M HtmlDataCollection :=
  let result := push_tag svg_tag result in
  result <- push_slot_tag result ;;
  result <- push_slot_attr result ;;
  result <- push_value_property "textarea" result ;;
  result <- push_value_property "input" result ;;
  result <- patch_audio result ;;
  result <- patch_video result ;;
  push_global_events HTML5_EVENTS result.

Definition getBuiltInHtmlCollection : M HtmlDataCollection :=
  result <- parseHtmlData baseline ;;
  result <- patch result ;;
  finish result.

End Builders.

(** ** A small concrete platform

    A file system with two files, a normalizer that turns tag and
    attribute names into untyped entities and rejects strings, merge
    functions that keep their input, and a Type Resolver given by a table.
    The properties below are instantiated on it. *)
Module Demo.

(** Tag data: name, attribute names, event names. *)
Definition DemoTag : Type := (string * list string * list string)%type.

Record Doc : Type := mkDoc {
  docTags : list DemoTag;
  docGlobalAttributes : list AttributeData
}.

Record Disk : Type := mkDisk {
  files : list (string * string);
  diagnostics : list string
}.

Definition platform : Platform :=
  {| HtmlData := Doc; TagData := DemoTag; ValueSet := unit;
     World := Disk; Err := string |}.
#[local] Existing Instance platform.

Fixpoint lookup (k : string) (l : list (string * string)) : option string :=
  match l with
  | [] => None
  | (k', v) :: rest => if String.eqb k k' then Some v else lookup k rest
  end.

Definition demo_existsSync (path : string) (w : Disk) : bool :=
  match lookup path (files w) with Some _ => true | None => false end.

Definition demo_readFileSync (path : string) (w : Disk) : result string :=
  match lookup path (files w) with
  | Some text => Ok text
  | None => Throw "ENOENT"
  end.

(** Only one JSON text is understood: a document with the tag [my-tag]. *)
Definition demo_JSON_parse (text : string) : result DataSource :=
  if String.eqb text "{my-tag}"
  then Ok (SourceObject (mkDoc [("my-tag", [], [])] []))
  else Throw "SyntaxError".

Definition demo_log (line : string) (w : Disk) : Disk :=
  mkDisk (files w) (line :: diagnostics w).

Definition untyped (k : option EntityKind) (from : option string)
    (n : string) : M HtmlMember :=
  g <- lazy (fun _ => TypeOfKind ANY) ;;
  ret (mkMember k n None g from None).

Definition demo_tag (t : DemoTag) : M HtmlTag :=
  let '(n, attributeNames, eventNames) := t in
  attributes' <- mapM (untyped (Some KAttribute) (Some n)) attributeNames ;;
  events' <- mapM (untyped (Some KEvent) (Some n)) eventNames ;;
  ret (mkTag n None attributes' [] events' [] None).

Definition demo_parseHtmlData (data : DataSource) : M HtmlDataCollection :=
  match data with
  | SourceString _ => fun s => (Throw "TypeError", s)
  | SourceObject d =>
      tags' <- mapM demo_tag (docTags d) ;;
      attrs' <- mapM (untyped (Some KAttribute) None)
                     (map attrDataName (docGlobalAttributes d)) ;;
      ret (mkCollection tags' attrs' [])
  end.

(** The externals, for a resolver table and baseline data. *)
Definition externals (special : list (string * SimpleType))
    (baselineTags : list DemoTag) (baselineEvents : list AttributeData)
  : Externals :=
  {| existsSync := demo_existsSync;
     readFileSync := demo_readFileSync;
     JSON_parse := demo_JSON_parse;
     process_cwd := fun _ => "/";
     join := fun a b => (a ++ b)%string;
     logger_debug := fun _ _ _ w => w;
     logger_error := fun msg e => demo_log (msg ++ ": " ++ e)%string;
     parseHtmlData := demo_parseHtmlData;
     mergeHtmlTags := fun l => ret l;
     mergeHtmlAttrs := fun l => ret l;
     mergeHtmlEvents := fun l => ret l;
     hasTypeForAttrName := fun n =>
       existsb (fun e => String.eqb (fst e) n) special;
     html5TagAttrType := fun n =>
       match find (fun e => String.eqb (fst e) n) special with
       | Some e => snd e
       | None => TypeOfKind ANY
       end;
     html_data_v1 := fun t a _ => mkDoc t a;
     HTML5_TAGS := baselineTags;
     HTML5_GLOBAL_ATTRIBUTES := [mkAttributeData "id" None];
     HTML5_EVENTS := baselineEvents;
     ARIA_ATTRIBUTES := [mkAttributeData "aria-label" None];
     HTML5_VALUE_MAP := [] |}.

Definition disk : Disk :=
  mkDisk [("good.json", "{my-tag}"); ("bad.json", "{")] [].

(** An empty heap. *)
Definition start : State :=
  mkState (fun _ => Cached (TypeOfKind UNKNOWN)) 0 disk.

(** Two resolvers over the same baseline: one without special cases, one
    that special-cases [controlslist] as a number. *)
Definition baseline_tags : list DemoTag := [("video", ["src"], ["play"])].
Definition baseline_events : list AttributeData :=
  [mkAttributeData "onclick" None].

Definition plain : Externals := externals [] baseline_tags baseline_events.

Definition special : Externals :=
  externals [("controlslist", TypeOfKind NUMBER)] baseline_tags
            baseline_events.

(** A configuration whose second source is a file that is not JSON. *)
Definition good_file : DataSource := SourceString "good.json".
Definition bad_file : DataSource := SourceString "bad.json".
Definition inline : DataSource :=
  SourceObject (mkDoc [("x-a", ["a"], [])] []).

Definition config : Config :=
  mkConfig (SourceArray [good_file; bad_file; inline])
           ["my-widget"] ["data-x"] ["my-event"].

(** A configuration without custom data. *)
Definition widget_config : Config :=
  mkConfig (SourceArray []) ["my-widget"] ["data-x"] ["my-event"].

(** A heap with three accessors: untyped and not yet called, string and
    already called, string and not yet called. *)
Definition three_cells : State :=
  mkState (fun l => match l with
                    | 0 => Pending (fun _ => TypeOfKind ANY)
                    | 1 => Cached (TypeOfKind STRING)
                    | _ => Pending (fun _ => TypeOfKind STRING)
                    end) 3 disk.

Definition three_attrs : list HtmlAttr :=
  [ mkMember (Some KAttribute) "x" None 0 None None;
    mkMember (Some KAttribute) "controlslist" None 1 None None;
    mkMember (Some KAttribute) "y" None 2 None None ].

(** A baseline with the four tags the builder patches, and a resolver that
    special-cases [name] as a string literal type. *)
Definition media_tags : list DemoTag :=
  [ ("textarea", ["rows"], []); ("input", ["type"], ["change"]);
    ("audio", ["src"], []); ("video", ["src"], ["play"]) ].

Definition media : Externals :=
  externals [("name", TypeStringLiteral "id")] media_tags baseline_events.

Definition type_error : Err := "TypeError".

(** The platform [plain] with a normalizer that rejects every document. *)
Definition rejecting : Externals :=
  {| existsSync := existsSync (Externals := plain);
     readFileSync := readFileSync (Externals := plain);
     JSON_parse := JSON_parse (Externals := plain);
     process_cwd := process_cwd (Externals := plain);
     join := join (Externals := plain);
     logger_debug := logger_debug (Externals := plain);
     logger_error := logger_error (Externals := plain);
     parseHtmlData := fun _ s => (Throw type_error, s);
     mergeHtmlTags := mergeHtmlTags (Externals := plain);
     mergeHtmlAttrs := mergeHtmlAttrs (Externals := plain);
     mergeHtmlEvents := mergeHtmlEvents (Externals := plain);
     hasTypeForAttrName := hasTypeForAttrName (Externals := plain);
     html5TagAttrType := html5TagAttrType (Externals := plain);
     html_data_v1 := html_data_v1 (Externals := plain);
     HTML5_TAGS := HTML5_TAGS (Externals := plain);
     HTML5_GLOBAL_ATTRIBUTES := HTML5_GLOBAL_ATTRIBUTES (Externals := plain);
     HTML5_EVENTS := HTML5_EVENTS (Externals := plain);
     ARIA_ATTRIBUTES := ARIA_ATTRIBUTES (Externals := plain);
     HTML5_VALUE_MAP := HTML5_VALUE_MAP (Externals := plain) |}.

(** A configuration all of whose sources fail: a file that is not JSON
    and a string that names no file. *)
Definition missing_file : DataSource := SourceString "missing.json".

Definition broken_config : Config :=
  mkConfig (SourceArray [bad_file; missing_file])
           ["my-widget"] ["data-x"] ["my-event"].

(** A baseline whose tags come out of the normalizer without events. *)
Definition eventless : Externals :=
  externals [] [("video", ["src"], []); ("input", ["type"], [])]
            baseline_events.

End Demo.

(** ** Vocabulary of the properties *)

Section Vocabulary.
Context {P : Platform} {X : Externals}.

(** [s'] is a later state of the heap of [s] in the same world: every
    accessor allocated in [s] still returns what it returned in [s]. *)
Definition extends (s s' : State) : Prop :=
  world s' = world s /\
  next s <= next s' /\
  forall l, l < next s -> resolved s' l = resolved s l.

(** The accessor of [m] exists in [s]. *)
Definition live (s : State) (m : HtmlMember) : Prop := getType m < next s.

(** The condition of line 223, read off the state [s]: the resolver
    special-cases the name, or the attribute's type resolves to the
    wildcard kind. *)
Definition backfill_condition (s : State) (attr : HtmlAttr) : bool :=
  hasTypeForAttrName (name attr)
  || SimpleTypeKind_eqb (kind (resolved s (getType attr))) ANY.

(** What [addMissingAttrTypes], run from [s] to [s'], returns for [attr]:
    under the condition, a copy whose accessor was made during the run and
    returns the resolver's answer for the name; otherwise [attr] itself. *)
Definition backfilled (s s' : State) (attr attr' : HtmlAttr) : Prop :=
  if backfill_condition s attr then
    attr' = with_getType (getType attr') attr /\
    next s <= getType attr' < next s' /\
    resolved s' (getType attr') = html5TagAttrType (name attr)
  else attr' = attr.

(** What the final [map]s of [getBuiltInHtmlCollection], run from [s] to
    [s'], return for an attribute and for a tag. *)
Definition finished_attr (s s' : State) (a a' : HtmlAttr) : Prop :=
  a' = with_getType (getType a') (with_builtIn true a) /\
  (live s a -> backfilled s s' (with_builtIn true a) a').

Definition finished_tag (s s' : State) (t t' : HtmlTag) : Prop :=
  t' = with_builtIn_attributes (attributes t') t /\
  Forall2 (finished_attr s s') (attributes t) (attributes t').

(** Every tag of [l] is in [l'] with the same name and the same events. *)
Definition keeps_tag_events (l l' : list HtmlTag) : Prop :=
  forall t, In t l ->
    exists t', In t' l' /\ tagName t' = tagName t /\ events t' = events t.

(** A patch that changes attributes or properties of existing tags
    only. *)
Definition same_names (r r' : HtmlDataCollection) : Prop :=
  map tagName (tags r') = map tagName (tags r) /\
  attrs r' = attrs r /\
  globalEvents r' = globalEvents r /\
  keeps_tag_events (tags r) (tags r').

(** The two attributes appended to the [video] tag, given their
    accessors. *)
Definition video_controlslist (g : Accessor) : HtmlAttr :=
  mkMember (Some KAttribute) "controlslist" None g (Some "video") (Some true).

Definition video_playsinline (g : Accessor) : HtmlAttr :=
  mkMember (Some KAttribute) "playsinline" (Some playsinline_description) g
           (Some "video") (Some true).

(** The event pushed for one entry of [HTML5_EVENTS]. *)
Definition event_of (e : AttributeData) (ev : HtmlEvent) : Prop :=
  name ev = strip_on (attrDataName e) /\
  description ev = attrDataDescription e /\
  builtIn ev = Some true.

(** The state after the [catch] block of line 29 has logged [e]. *)
Definition logged (e : Err) (s : State) : State :=
  mkState (cells s) (next s)
          (logger_error "Error parsing user configuration 'customHtmlData'" e
                        (world s)).

(** An attribute or event made from a name of the flat lists during a run
    from [s] to [s']: only [name], [kind] and [getType] are set, and the
    accessor, made during the run, returns the wildcard type. *)
Definition synthesized (k : EntityKind) (s s' : State) (n : string)
    (m : HtmlMember) : Prop :=
  m = mkMember (Some k) n None (getType m) None None /\
  next s <= getType m < next s' /\
  resolved s' (getType m) = TypeOfKind ANY.

(** The attributes and events of a collection, global and of its tags. *)
Definition members (c : HtmlDataCollection) : list HtmlMember :=
  attrs c ++ globalEvents c
  ++ flat_map (fun t => attributes t ++ events t) (tags c).

(** ** Vocabulary of the patches *)

(** The accessor [g] exists in [s] and returns [T]. *)
Definition typed (s : State) (g : Accessor) (T : SimpleType) : Prop :=
  g < next s /\ resolved s g = T.

(** The entities the patches make, given their accessors (lines 89-127,
    131-143, 167-173). *)
Definition slot_tag (g_event g_name g_on : Accessor) : HtmlTag :=
  mkTag "slot" (Some EmptyString)
    [ mkMember (Some KAttribute) "name" None g_name (Some "slot") (Some true);
      mkMember (Some KAttribute) "onslotchange" None g_on (Some "slot")
               (Some true) ]
    []
    [ mkMember None "slotchange" (Some slotchange_description) g_event
               (Some "slot") (Some true) ]
    []
    None.

Definition slot_attr (g : Accessor) : HtmlAttr :=
  mkMember (Some KAttribute) "slot" None g None (Some true).

Definition value_property (n : string) (g : Accessor) : HtmlProp :=
  mkMember (Some KProperty) "value" None g (Some n) (Some true).

Definition audio_controlslist (g : Accessor) : HtmlAttr :=
  mkMember (Some KAttribute) "controlslist" None g (Some "audio") (Some true).

Definition nullable_string : SimpleType :=
  TypeUnion [TypeOfKind STRING; TypeOfKind NULL].

(** [t'] is [t] with the properties [ps] and the attributes [as_]
    appended. *)
Definition appended (ps : list HtmlProp) (as_ : list HtmlAttr)
    (t t' : HtmlTag) : Prop :=
  tagName t' = tagName t /\
  tagDescription t' = tagDescription t /\
  events t' = events t /\
  slots t' = slots t /\
  tagBuiltIn t' = tagBuiltIn t /\
  properties t' = properties t ++ ps /\
  attributes t' = attributes t ++ as_.

(** [t'] is [t] with members appended; properties only for [textarea]
    and [input], attributes only for [audio] and [video]. *)
Definition grown (t t' : HtmlTag) : Prop :=
  exists ps as_,
    appended ps as_ t t' /\
    (ps = [] \/ In (tagName t) ["textarea"; "input"]) /\
    (as_ = [] \/ In (tagName t) ["audio"; "video"]).

(** [r'] is [r] after the patch of the tag named [n]: nothing if there is
    no such tag, and otherwise the first such tag with members appended. *)
Definition patched_at (n : string) (ps : list HtmlProp)
    (as_ : list HtmlAttr) (r r' : HtmlDataCollection) : Prop :=
  attrs r' = attrs r /\
  globalEvents r' = globalEvents r /\
  match find (has_tagName n) (tags r) with
  | None => tags r' = tags r
  | Some t =>
      exists l1 l2 t',
        tags r = l1 ++ t :: l2 /\
        tags r' = l1 ++ t' :: l2 /\
        appended ps as_ t t'
  end.

(** The event pushed for one entry of [HTML5_EVENTS], with its type. *)
Definition bare_event (s : State) (e : AttributeData) (ev : HtmlEvent)
  : Prop :=
  ev = mkMember None (strip_on (attrDataName e)) (attrDataDescription e)
                (getType ev) None (Some true) /\
  typed s (getType ev) (TypeOfKind ANY).

(** How a tag of the normalizer's output appears in the collection the
    built-in builder returns. *)
Definition finished_copy (a a' : HtmlAttr) : Prop :=
  a' = with_getType (getType a') (with_builtIn true a).

Definition grown_and_finished (t t' : HtmlTag) : Prop :=
  tagName t' = tagName t /\
  tagDescription t' = tagDescription t /\
  events t' = events t /\
  slots t' = slots t /\
  tagBuiltIn t' = Some true /\
  (exists ps,
      properties t' = properties t ++ ps /\
      (ps = [] \/ In (tagName t) ["textarea"; "input"])) /\
  (exists as_,
      Forall2 finished_copy (attributes t ++ as_) (attributes t') /\
      (as_ = [] \/ In (tagName t) ["audio"; "video"])).

(** Every source of [l] fails when the loop reaches it from state [s]. *)
Fixpoint all_fail (l : list DataSource) (s : State) : Prop :=
  match l with
  | [] => True
  | src :: rest =>
      exists e s2,
        merge_source empty_collection src s = (Throw e, s2) /\
        all_fail rest (logged e s2)
  end.

(** ** Vocabulary of the source loop *)

(** [bare] is [full] with one leading [on] removed, if it has one. *)
Definition bare_name (full bare : string) : Prop :=
  (forall rest, full = String "o" (String "n" rest) -> bare = rest) /\
  (String.prefix "on" full = false -> bare = full).

(** The state in which a source is resolved, after the trace of
    line 21. *)
Definition traced (src : DataSource) (s : State) : State :=
  mkState (cells s) (next s)
    (logger_debug src
       (match src with
        | SourceString p => Some (join (process_cwd (world s)) p)
        | SourceObject _ => None
        end)
       (process_cwd (world s)) (world s)).

(** The outcome of the loop in the words of the specification (section
    4.2), to be compared with [for_each_source].  A string that names an
    existing file is read and parsed as structured data; any other source
    is the data itself. *)
Inductive resolves_to (w : World) : DataSource -> result DataSource -> Prop :=
| resolves_inline (d : HtmlData) :
    resolves_to w (SourceObject d) (Ok (SourceObject d))
| resolves_pass_through (p : string) :
    existsSync p w = false ->
    resolves_to w (SourceString p) (Ok (SourceString p))
| resolves_file (p text : string) :
    existsSync p w = true ->
    readFileSync p w = Ok text ->
    resolves_to w (SourceString p) (JSON_parse text)
| resolves_unreadable (p : string) (e : Err) :
    existsSync p w = true ->
    readFileSync p w = Throw e ->
    resolves_to w (SourceString p) (Throw e).

(** One source, for the running collection [c]: it is resolved, then
    normalized, then merged into [c] list by list; the outcome is the
    merged collection, or the exception of the first step that fails. *)
Inductive source_outcome (c : HtmlDataCollection) (src : DataSource)
    (s : State) : result HtmlDataCollection -> State -> Prop :=
| source_unresolved (e : Err) :
    resolves_to (world (traced src s)) src (Throw e) ->
    source_outcome c src s (Throw e) (traced src s)
| source_rejected (data : DataSource) (e : Err) (s1 : State) :
    resolves_to (world (traced src s)) src (Ok data) ->
    parseHtmlData data (traced src s) = (Throw e, s1) ->
    source_outcome c src s (Throw e) s1
| source_tags_unmerged (data : DataSource) (parsed : HtmlDataCollection)
    (e : Err) (s1 s2 : State) :
    resolves_to (world (traced src s)) src (Ok data) ->
    parseHtmlData data (traced src s) = (Ok parsed, s1) ->
    mergeHtmlTags (tags c ++ tags parsed) s1 = (Throw e, s2) ->
    source_outcome c src s (Throw e) s2
| source_attrs_unmerged (data : DataSource) (parsed : HtmlDataCollection)
    (tags' : list HtmlTag) (e : Err) (s1 s2 s3 : State) :
    resolves_to (world (traced src s)) src (Ok data) ->
    parseHtmlData data (traced src s) = (Ok parsed, s1) ->
    mergeHtmlTags (tags c ++ tags parsed) s1 = (Ok tags', s2) ->
    mergeHtmlAttrs (attrs c ++ attrs parsed) s2 = (Throw e, s3) ->
    source_outcome c src s (Throw e) s3
| source_events_unmerged (data : DataSource) (parsed : HtmlDataCollection)
    (tags' : list HtmlTag) (attrs' : list HtmlAttr) (e : Err)
    (s1 s2 s3 s4 : State) :
    resolves_to (world (traced src s)) src (Ok data) ->
    parseHtmlData data (traced src s) = (Ok parsed, s1) ->
    mergeHtmlTags (tags c ++ tags parsed) s1 = (Ok tags', s2) ->
    mergeHtmlAttrs (attrs c ++ attrs parsed) s2 = (Ok attrs', s3) ->
    mergeHtmlEvents (globalEvents c ++ globalEvents parsed) s3
    = (Throw e, s4) ->
    source_outcome c src s (Throw e) s4
| source_merged (data : DataSource) (parsed : HtmlDataCollection)
    (tags' : list HtmlTag) (attrs' : list HtmlAttr)
    (events' : list HtmlEvent) (s1 s2 s3 s4 : State) :
    resolves_to (world (traced src s)) src (Ok data) ->
    parseHtmlData data (traced src s) = (Ok parsed, s1) ->
    mergeHtmlTags (tags c ++ tags parsed) s1 = (Ok tags', s2) ->
    mergeHtmlAttrs (attrs c ++ attrs parsed) s2 = (Ok attrs', s3) ->
    mergeHtmlEvents (globalEvents c ++ globalEvents parsed) s3
    = (Ok events', s4) ->
    source_outcome c src s (Ok (mkCollection tags' attrs' events')) s4.

(** The sources in order: a source that succeeds replaces the running
    collection by its merged collection; a source that fails is logged
    and leaves the running collection as it was. *)
Inductive loop_outcome :
  list DataSource -> HtmlDataCollection -> State ->
  HtmlDataCollection -> State -> Prop :=
| loop_done (c : HtmlDataCollection) (s : State) :
    loop_outcome [] c s c s
| loop_kept (src : DataSource) (rest : list DataSource)
    (c c1 c' : HtmlDataCollection) (s s1 s' : State) :
    source_outcome c src s (Ok c1) s1 ->
    loop_outcome rest c1 s1 c' s' ->
    loop_outcome (src :: rest) c s c' s'
| loop_skipped (src : DataSource) (rest : list DataSource)
    (c c' : HtmlDataCollection) (e : Err) (s s1 s' : State) :
    source_outcome c src s (Throw e) s1 ->
    loop_outcome rest c (logged e s1) c' s' ->
    loop_outcome (src :: rest) c s c' s'.

(** ** Vocabulary of the accessors *)

(** The accessor [g] was made by [lazy] between [s] and [s'] for the
    constant type [T], and has not been called yet. *)
Definition made_lazily (s s' : State) (g : Accessor) (T : SimpleType)
  : Prop :=
  next s <= g < next s' /\ cells s' g = Pending (fun _ => T).

(** The first call of [g] in [s] returns [v] and caches it; a second call
    returns the cached [v] and changes nothing, also in a changed
    world. *)
Definition memoizes (s : State) (g : Accessor) (v : SimpleType) : Prop :=
  exists s1,
    call g s = (Ok v, s1) /\
    cells s1 g = Cached v /\
    call g s1 = (Ok v, s1) /\
    forall w, call g (in_world w s1) = (Ok v, in_world w s1).

End Vocabulary.

(** * Properties *)

Lemma SimpleTypeKind_eqb_eq (a b : SimpleTypeKind) :
  SimpleTypeKind_eqb a b = true <-> a = b.
Proof. destruct a, b; simpl; split; intro H; congruence. Qed.

(** [strip_on] removes one leading [on] and nothing else. *)
Lemma strip_on_bare_name (s : string) : bare_name s (strip_on s).
Proof.
  split; [now intros rest ->|].
  destruct s as [|c1 s]; [reflexivity|]. simpl String.prefix.
  destruct (Ascii.ascii_dec "o" c1) as [<-|H1]; cbv iota.
  - destruct s as [|c2 s]; [reflexivity|]. simpl String.prefix.
    destruct (Ascii.ascii_dec "n" c2) as [<-|H2]; cbv iota.
    + destruct s; discriminate.
    + intros _. destruct c2 as [[] [] [] [] [] [] [] []]; try reflexivity.
      now elim H2.
  - intros _. destruct c1 as [[] [] [] [] [] [] [] []]; try reflexivity.
    now elim H1.
Qed.

Section Properties.
Context {P : Platform} {X : Externals}.

(** ** The heap *)

Lemma extends_refl (s : State) : extends s s.
Proof. repeat split; auto. Qed.

Lemma extends_trans (s1 s2 s3 : State) :
  extends s1 s2 -> extends s2 s3 -> extends s1 s3.
Proof.
  intros (W1 & N1 & R1) (W2 & N2 & R2). repeat split.
  - congruence.
  - lia.
  - intros l Hl. rewrite R2 by lia. now apply R1.
Qed.

Lemma set_cell_same (h : nat -> Cell) (l : nat) (c : Cell) :
  set_cell h l c l = c.
Proof. unfold set_cell. now rewrite Nat.eqb_refl. Qed.

Lemma set_cell_other (h : nat -> Cell) (l l' : nat) (c : Cell) :
  l' <> l -> set_cell h l c l' = h l'.
Proof.
  intro H. unfold set_cell. apply Nat.eqb_neq in H. now rewrite H.
Qed.

Lemma lazy_spec (f : World -> SimpleType) (s : State) :
  exists s',
    lazy f s = (Ok (next s), s') /\
    extends s s' /\
    next s' = S (next s) /\
    resolved s' (next s) = f (world s).
Proof.
  eexists. split; [reflexivity|]. repeat split; simpl; auto.
  - intros l Hl. unfold resolved. simpl.
    rewrite set_cell_other by lia. reflexivity.
  - unfold resolved. simpl. now rewrite set_cell_same.
Qed.

Lemma call_spec (l : Accessor) (s : State) :
  exists s',
    call l s = (Ok (resolved s l), s') /\
    world s' = world s /\
    next s' = next s /\
    cells s' l = Cached (resolved s l) /\
    forall l', resolved s' l' = resolved s l'.
Proof.
  unfold call, resolved. destruct (cells s l) as [f|v] eqn:E.
  - eexists. split; [reflexivity|]. simpl. repeat split.
    + apply set_cell_same.
    + intro l'. destruct (Nat.eq_dec l' l) as [->|Hne].
      * rewrite set_cell_same, E. reflexivity.
      * rewrite set_cell_other by assumption. reflexivity.
  - exists s. repeat split; auto.
Qed.

Lemma call_extends (l : Accessor) (s : State) :
  exists s', call l s = (Ok (resolved s l), s') /\ extends s s' /\
             next s' = next s.
Proof.
  destruct (call_spec l s) as (s' & E & W & N & _ & R).
  exists s'. repeat split; auto. lia.
Qed.

Lemma call_returns_resolved (l : Accessor) (s : State) :
  fst (call l s) = Ok (resolved s l).
Proof. destruct (call_spec l s) as (s' & E & _). now rewrite E. Qed.

(** ** The monad *)

Lemma bind_Ok {A B : Type} (m : M A) (f : A -> M B) (s s' : State) (a : A) :
  m s = (Ok a, s') -> bind m f s = f a s'.
Proof. intro E. unfold bind. now rewrite E. Qed.
Arguments bind_Ok {A B m f s s' a} _.

(** [mapM] of a function that never throws and satisfies a two-state
    specification [R] that is stable under later extensions. *)
Lemma mapM_spec {A B : Type} (f : A -> M B)
    (R : State -> State -> A -> B -> Prop) :
  (forall a s, exists b s', f a s = (Ok b, s') /\ extends s s' /\ R s s' a b) ->
  (forall s0 s1 s2 s3 a b,
      extends s0 s1 -> extends s1 s2 -> extends s2 s3 ->
      R s1 s2 a b -> R s0 s3 a b) ->
  forall l s,
    exists out s',
      mapM f l s = (Ok out, s') /\ extends s s' /\ Forall2 (R s s') l out.
Proof.
  intros Hf Hmono. induction l as [|a rest IH]; intro s.
  - exists [], s. repeat split; auto using extends_refl.
  - destruct (Hf a s) as (b & s1 & E1 & X1 & R1).
    destruct (IH s1) as (out & s2 & E2 & X2 & R2).
    exists (b :: out), s2. simpl.
    rewrite (bind_Ok E1), (bind_Ok E2). split; [reflexivity|].
    split; [eauto using extends_trans|].
    constructor.
    + apply (Hmono s s s1 s2); auto using extends_refl.
    + eapply Forall2_impl; [|exact R2].
      intros a0 b0 H0. apply (Hmono s s1 s2 s2); auto using extends_refl.
Qed.

(** ** [addMissingAttrTypes] *)

Lemma needs_resolver_type_spec (attr : HtmlAttr) (s : State) :
  exists s',
    needs_resolver_type attr s = (Ok (backfill_condition s attr), s') /\
    extends s s' /\ next s' = next s.
Proof.
  unfold needs_resolver_type, backfill_condition.
  destruct (hasTypeForAttrName (name attr)); simpl.
  - exists s. auto using extends_refl.
  - destruct (call_extends (getType attr) s) as (s' & E & Hx & Hn).
    exists s'. rewrite (bind_Ok E). auto.
Qed.

Lemma addMissingAttrType_spec (attr : HtmlAttr) (s : State) :
  exists attr' s',
    addMissingAttrType attr s = (Ok attr', s') /\
    extends s s' /\
    (attr' = with_getType (getType attr') attr /\ backfilled s s' attr attr').
Proof.
  unfold addMissingAttrType, backfilled.
  destruct (needs_resolver_type_spec attr s) as (s1 & E1 & X1 & N1).
  rewrite (bind_Ok E1).
  destruct (backfill_condition s attr).
  - destruct (lazy_spec (fun _ => html5TagAttrType (name attr)) s1)
      as (s2 & E2 & X2 & N2 & R2).
    exists (with_getType (next s1) attr), s2.
    rewrite (bind_Ok E2). split; [reflexivity|].
    split; [eauto using extends_trans|].
    simpl. repeat split; auto; lia.
  - exists attr, s1. split; [reflexivity|]. split; [assumption|].
    split; [now destruct attr|reflexivity].
Qed.

(** The per-attribute specification survives what happens before and
    after, for an attribute whose accessor exists from the start. *)
Lemma backfilled_mono (s0 s1 s2 s3 : State) (attr attr' : HtmlAttr) :
  extends s0 s1 -> extends s1 s2 -> extends s2 s3 ->
  live s0 attr ->
  backfilled s1 s2 attr attr' -> backfilled s0 s3 attr attr'.
Proof.
  intros (W1 & N1 & R1) (W2 & N2 & R2) (W3 & N3 & R3) Hl.
  unfold live in Hl. unfold backfilled, backfill_condition.
  rewrite (R1 _ Hl).
  destruct (hasTypeForAttrName (name attr)
            || SimpleTypeKind_eqb (kind (resolved s0 (getType attr))) ANY);
    auto.
  intros (Ha & Hn & Hr). repeat split; auto; try lia.
  rewrite R3 by lia. exact Hr.
Qed.

Lemma addMissingAttrTypes_spec (attrs : list HtmlAttr) (s : State) :
  exists out s',
    addMissingAttrTypes attrs s = (Ok out, s') /\
    extends s s' /\
    Forall2 (fun attr attr' =>
               attr' = with_getType (getType attr') attr /\
               (live s attr -> backfilled s s' attr attr'))
            attrs out.
Proof.
  unfold addMissingAttrTypes. revert s.
  induction attrs as [|a rest IH]; intro s.
  - exists [], s. repeat split; auto using extends_refl.
  - destruct (addMissingAttrType_spec a s) as (b & s1 & E1 & X1 & Hb & R1).
    destruct (IH s1) as (out & s2 & E2 & X2 & R2).
    exists (b :: out), s2. simpl.
    rewrite (bind_Ok E1), (bind_Ok E2). split; [reflexivity|].
    split; [eauto using extends_trans|].
    constructor.
    + split; [exact Hb|]. intro H0.
      apply (backfilled_mono (s0:=s) (s1:=s) (s2:=s1) (s3:=s2));
        auto using extends_refl.
    + eapply Forall2_impl; [|exact R2].
      intros a0 b0 (H1 & H2). split; [exact H1|]. intro H0.
      apply (backfilled_mono (s0:=s) (s1:=s1) (s2:=s2) (s3:=s2));
        auto using extends_refl.
      apply H2. unfold live in *. destruct X1 as (_ & N1 & _). lia.
Qed.

(** ** Arrays *)

Lemma Forall2_map_left {A B C : Type} (R : B -> C -> Prop) (f : A -> B)
    (l : list A) (l' : list C) :
  Forall2 R (map f l) l' -> Forall2 (fun a c => R (f a) c) l l'.
Proof.
  revert l'. induction l as [|a l IH]; intros l' H; inversion H; subst;
    constructor; auto.
Qed.

Lemma update_first_names (p : HtmlTag -> bool) (f : HtmlTag -> HtmlTag)
    (l : list HtmlTag) :
  (forall t, tagName (f t) = tagName t) ->
  map tagName (update_first p f l) = map tagName l.
Proof.
  intro Hf. induction l as [|t l IH]; simpl; [reflexivity|].
  destruct (p t); simpl; congruence.
Qed.

Lemma update_first_keeps_tag_events (p : HtmlTag -> bool)
    (f : HtmlTag -> HtmlTag) (l : list HtmlTag) :
  (forall t, tagName (f t) = tagName t /\ events (f t) = events t) ->
  keeps_tag_events l (update_first p f l).
Proof.
  intros Hf t. induction l as [|x l IH]; simpl; [tauto|].
  destruct (p x).
  - intros [->|Hin].
    + exists (f t). split; [now left|apply Hf].
    + exists t. split; [now right|auto].
  - intros [->|Hin].
    + exists t. split; [now left|auto].
    + destruct (IH Hin) as (t' & H1 & H2). exists t'. split; [now right|auto].
Qed.

Lemma keeps_tag_events_refl (l : list HtmlTag) : keeps_tag_events l l.
Proof. intros t Ht. exists t. auto. Qed.

Lemma keeps_tag_events_trans (l1 l2 l3 : list HtmlTag) :
  keeps_tag_events l1 l2 -> keeps_tag_events l2 l3 ->
  keeps_tag_events l1 l3.
Proof.
  intros H1 H2 t Ht. destruct (H1 t Ht) as (t1 & I1 & N1 & E1).
  destruct (H2 t1 I1) as (t2 & I2 & N2 & E2).
  exists t2. split; [exact I2|]. split; congruence.
Qed.

Lemma keeps_tag_events_app (l l' : list HtmlTag) :
  keeps_tag_events l (l ++ l').
Proof. intros t Ht. exists t. split; [apply in_or_app; now left|auto]. Qed.

Lemma update_first_found {A : Type} (p : A -> bool) (f : A -> A)
    (l : list A) (x : A) :
  find p l = Some x ->
  exists l1 l2, l = l1 ++ x :: l2 /\ update_first p f l = l1 ++ f x :: l2.
Proof.
  induction l as [|y l IH]; simpl; [discriminate|].
  destruct (p y) eqn:E.
  - intros [= ->]. exists [], l. auto.
  - intro H. destruct (IH H) as (l1 & l2 & -> & ->).
    exists (y :: l1), l2. auto.
Qed.

Lemma find_tagName (n : string) (l : list HtmlTag) :
  In n (map tagName l) ->
  exists t, find (has_tagName n) l = Some t /\ tagName t = n.
Proof.
  induction l as [|t l IH]; simpl; [tauto|].
  unfold has_tagName at 1. destruct (String.eqb (tagName t) n) eqn:E.
  - intros _. exists t. split; [reflexivity|]. now apply String.eqb_eq.
  - intros [H|H]; [|auto].
    apply String.eqb_neq in E. congruence.
Qed.

(** ** The manual patches *)

Lemma same_names_refl (r : HtmlDataCollection) : same_names r r.
Proof. repeat split. apply keeps_tag_events_refl. Qed.

Lemma same_names_trans (r1 r2 r3 : HtmlDataCollection) :
  same_names r1 r2 -> same_names r2 r3 -> same_names r1 r3.
Proof.
  intros (A1 & B1 & C1 & D1) (A2 & B2 & C2 & D2).
  split; [congruence|]. split; [congruence|]. split; [congruence|].
  eauto using keeps_tag_events_trans.
Qed.

Lemma update_tag_same_names (n : string) (f : HtmlTag -> HtmlTag)
    (r : HtmlDataCollection) :
  (forall t, tagName (f t) = tagName t /\ events (f t) = events t) ->
  same_names r (update_tag n f r).
Proof.
  intro Hf. split; [|split; [reflexivity|split; [reflexivity|]]].
  - simpl. apply update_first_names. intro t. apply Hf.
  - simpl. now apply update_first_keeps_tag_events.
Qed.

Lemma push_slot_tag_spec (r : HtmlDataCollection) (s : State) :
  exists t s',
    push_slot_tag r s = (Ok (push_tag t r), s') /\ extends s s' /\
    tagName t = "slot".
Proof.
  unfold push_slot_tag.
  destruct (lazy_spec (fun _ => TypeOfKind ANY) s) as (s1 & E1 & X1 & _).
  destruct (lazy_spec (fun _ => TypeOfKind STRING) s1) as (s2 & E2 & X2 & _).
  destruct (lazy_spec (fun _ => TypeOfKind STRING) s2) as (s3 & E3 & X3 & _).
  rewrite (bind_Ok E1), (bind_Ok E2), (bind_Ok E3).
  eexists. exists s3. split; [reflexivity|].
  split; [eauto using extends_trans|reflexivity].
Qed.

Lemma push_slot_attr_spec (r : HtmlDataCollection) (s : State) :
  exists a s',
    push_slot_attr r s = (Ok (push_attr a r), s') /\ extends s s' /\
    name a = "slot".
Proof.
  unfold push_slot_attr.
  destruct (lazy_spec (fun _ => TypeOfKind STRING) s) as (s1 & E1 & X1 & _).
  rewrite (bind_Ok E1). eexists. exists s1. split; [reflexivity|]. auto.
Qed.

Lemma push_value_property_spec (n : string) (r : HtmlDataCollection)
    (s : State) :
  exists r' s',
    push_value_property n r s = (Ok r', s') /\ extends s s' /\
    same_names r r'.
Proof.
  unfold push_value_property.
  destruct (find (has_tagName n) (tags r)).
  - destruct (lazy_spec
                (fun _ => TypeUnion [TypeOfKind STRING; TypeOfKind NULL]) s)
      as (s1 & E1 & X1 & _).
    rewrite (bind_Ok E1). eexists. exists s1. split; [reflexivity|].
    split; [assumption|]. apply update_tag_same_names. now intro.
  - exists r, s. auto using extends_refl, same_names_refl.
Qed.

Lemma patch_audio_spec (r : HtmlDataCollection) (s : State) :
  exists r' s',
    patch_audio r s = (Ok r', s') /\ extends s s' /\ same_names r r'.
Proof.
  unfold patch_audio.
  destruct (find (has_tagName "audio") (tags r)).
  - destruct (lazy_spec (fun _ => TypeOfKind STRING) s) as (s1 & E1 & X1 & _).
    rewrite (bind_Ok E1). eexists. exists s1. split; [reflexivity|].
    split; [assumption|]. apply update_tag_same_names. now intro.
  - exists r, s. auto using extends_refl, same_names_refl.
Qed.

(** The [video] patch keeps all names and, when a tag named [video]
    exists, leaves one whose attributes end with the two new ones, typed
    string and boolean. *)
Lemma patch_video_spec (r : HtmlDataCollection) (s : State) :
  exists r' s',
    patch_video r s = (Ok r', s') /\ extends s s' /\ same_names r r' /\
    (In "video" (map tagName (tags r)) ->
     exists t g1 g2,
       In (with_attributes
             (attributes t ++ [video_controlslist g1; video_playsinline g2])
             t) (tags r') /\
       tagName t = "video" /\
       g1 < next s' /\ g2 < next s' /\
       resolved s' g1 = TypeOfKind STRING /\
       resolved s' g2 = TypeOfKind BOOLEAN).
Proof.
  unfold patch_video.
  destruct (find (has_tagName "video") (tags r)) as [t|] eqn:F.
  - destruct (lazy_spec (fun _ => TypeOfKind STRING) s)
      as (s1 & E1 & X1 & N1 & R1).
    destruct (lazy_spec (fun _ => TypeOfKind BOOLEAN) s1)
      as (s2 & E2 & X2 & N2 & R2).
    rewrite (bind_Ok E1), (bind_Ok E2). eexists. exists s2.
    split; [reflexivity|]. split; [eauto using extends_trans|].
    split; [apply update_tag_same_names; now intro|].
    intro Hin. destruct (find_tagName _ _ Hin) as (t0 & F0 & Hn).
    rewrite F in F0. injection F0 as ->.
    exists t0, (next s), (next s1). simpl.
    destruct (update_first_found (has_tagName "video")
                (fun t =>
                   with_attributes
                     (attributes t ++
                      [ mkMember (Some KAttribute) "controlslist" None
                                 (next s) (Some "video") (Some true);
                        mkMember (Some KAttribute) "playsinline"
                                 (Some playsinline_description)
                                 (next s1) (Some "video") (Some true) ])
                     t) _ F) as (l1 & l2 & _ & ->).
    split; [apply in_or_app; right; left; reflexivity|].
    split; [assumption|].
    destruct X2 as (_ & _ & R12).
    repeat split; try lia.
    + rewrite R12 by lia. exact R1.
    + exact R2.
  - exists r, s. split; [reflexivity|].
    split; [apply extends_refl|]. split; [apply same_names_refl|].
    intro Hin. destruct (find_tagName _ _ Hin) as (t0 & F0 & _). congruence.
Qed.

Lemma push_global_events_spec (l : list AttributeData)
    (r : HtmlDataCollection) (s : State) :
  exists evs s',
    push_global_events l r s
    = (Ok (mkCollection (tags r) (attrs r) (globalEvents r ++ evs)), s') /\
    extends s s' /\ Forall2 event_of l evs.
Proof.
  revert r s. induction l as [|e l IH]; intros r s; simpl.
  - exists [], s. rewrite app_nil_r. destruct r.
    auto using extends_refl.
  - destruct (lazy_spec (fun _ => TypeOfKind ANY) s) as (s1 & E1 & X1 & _).
    rewrite (bind_Ok E1).
    destruct (IH (push_event
                    (mkMember None (strip_on (attrDataName e))
                              (attrDataDescription e) (next s) None
                              (Some true)) r) s1)
      as (evs & s2 & E2 & X2 & F2).
    rewrite E2. simpl. rewrite <- app_assoc. eexists. exists s2.
    split; [reflexivity|]. split; [eauto using extends_trans|].
    constructor; [repeat split|assumption].
Qed.

Lemma patch_spec (r : HtmlDataCollection) (s : State) :
  exists r' s' a evs,
    patch r s = (Ok r', s') /\ extends s s' /\
    map tagName (tags r') = map tagName (tags r) ++ ["svg"; "slot"] /\
    (attrs r' = attrs r ++ [a] /\ name a = "slot") /\
    (globalEvents r' = globalEvents r ++ evs /\
     Forall2 event_of HTML5_EVENTS evs) /\
    (In "video" (map tagName (tags r)) ->
     exists t g1 g2,
       In (with_attributes
             (attributes t ++ [video_controlslist g1; video_playsinline g2])
             t) (tags r') /\
       tagName t = "video" /\
       g1 < next s' /\ g2 < next s' /\
       resolved s' g1 = TypeOfKind STRING /\
       resolved s' g2 = TypeOfKind BOOLEAN) /\
    keeps_tag_events (tags r) (tags r').
Proof.
  unfold patch.
  destruct (push_slot_tag_spec (push_tag svg_tag r) s)
    as (t & s1 & E1 & X1 & Ht).
  destruct (push_slot_attr_spec (push_tag t (push_tag svg_tag r)) s1)
    as (a & s2 & E2 & X2 & Ha).
  destruct (push_value_property_spec "textarea"
              (push_attr a (push_tag t (push_tag svg_tag r))) s2)
    as (r3 & s3 & E3 & X3 & S3).
  destruct (push_value_property_spec "input" r3 s3)
    as (r4 & s4 & E4 & X4 & S4).
  destruct (patch_audio_spec r4 s4) as (r5 & s5 & E5 & X5 & S5).
  destruct (patch_video_spec r5 s5) as (r6 & s6 & E6 & X6 & S6 & V6).
  destruct (push_global_events_spec HTML5_EVENTS r6 s6)
    as (evs & s7 & E7 & X7 & F7).
  rewrite (bind_Ok E1), (bind_Ok E2), (bind_Ok E3), (bind_Ok E4),
    (bind_Ok E5), (bind_Ok E6), E7.
  pose proof (same_names_trans S3 (same_names_trans S4 S5))
    as (T5 & A5 & G5 & K5).
  destruct S6 as (T6 & A6 & G6 & K6).
  simpl in T5, A5, G5, K5.
  eexists. exists s7, a, evs. split; [reflexivity|]. simpl.
  split; [eauto 10 using extends_trans|].
  split.
  { rewrite T6, T5, !map_app, <- app_assoc. simpl. rewrite Ht. reflexivity. }
  split; [split; [now rewrite A6, A5|assumption]|].
  split; [split; [now rewrite G6, G5|assumption]|].
  split.
  - intro Hin.
    destruct V6 as (t0 & g1 & g2 & I0 & N0 & L1 & L2 & R1 & R2).
    { rewrite T5, !map_app. apply in_or_app; left. apply in_or_app; left.
      exact Hin. }
    exists t0, g1, g2. destruct X7 as (_ & N7 & R7).
    repeat split; auto; try lia; rewrite R7 by lia; assumption.
  - apply keeps_tag_events_trans with (l2 := tags r5); [|exact K6].
    apply keeps_tag_events_trans with (l2 := (tags r ++ [svg_tag]) ++ [t]);
      [|exact K5].
    rewrite <- app_assoc. apply keeps_tag_events_app.
Qed.

(** ** The final maps *)

Lemma finished_attr_mono (s0 s1 s2 s3 : State) (a a' : HtmlAttr) :
  extends s0 s1 -> extends s1 s2 -> extends s2 s3 ->
  finished_attr s1 s2 a a' -> finished_attr s0 s3 a a'.
Proof.
  intros X1 X2 X3 (H1 & H2). split; [exact H1|]. intro Hl.
  apply (backfilled_mono (s0:=s0) (s1:=s1) (s2:=s2) (s3:=s3)); auto.
  apply H2. unfold live in *. destruct X1 as (_ & N1 & _). lia.
Qed.

Lemma finish_attrs_spec (l : list HtmlAttr) (s : State) :
  exists out s',
    addMissingAttrTypes (map (with_builtIn true) l) s = (Ok out, s') /\
    extends s s' /\ Forall2 (finished_attr s s') l out.
Proof.
  destruct (addMissingAttrTypes_spec (map (with_builtIn true) l) s)
    as (out & s' & E & Hx & F).
  exists out, s'. split; [exact E|]. split; [exact Hx|].
  apply Forall2_map_left in F. exact F.
Qed.

Lemma finish_tag_spec (t : HtmlTag) (s : State) :
  exists t' s',
    finish_tag t s = (Ok t', s') /\ extends s s' /\ finished_tag s s' t t'.
Proof.
  unfold finish_tag.
  destruct (finish_attrs_spec (attributes t) s) as (out & s' & E & Hx & F).
  rewrite (bind_Ok E). eexists. exists s'. split; [reflexivity|].
  split; [exact Hx|]. split; [reflexivity|exact F].
Qed.

Lemma finished_tag_mono (s0 s1 s2 s3 : State) (t t' : HtmlTag) :
  extends s0 s1 -> extends s1 s2 -> extends s2 s3 ->
  finished_tag s1 s2 t t' -> finished_tag s0 s3 t t'.
Proof.
  intros X1 X2 X3 (H1 & H2). split; [exact H1|].
  eapply Forall2_impl; [|exact H2].
  intros a a'. now apply finished_attr_mono.
Qed.

Lemma finish_spec (r : HtmlDataCollection) (s : State) :
  exists c s',
    finish r s = (Ok c, s') /\ extends s s' /\
    Forall2 (finished_tag s s') (tags r) (tags c) /\
    Forall2 (finished_attr s s') (attrs r) (attrs c) /\
    globalEvents c = map (with_builtIn true) (globalEvents r).
Proof.
  unfold finish.
  destruct (mapM_spec finish_tag finished_tag finish_tag_spec
              finished_tag_mono (tags r) s) as (ts & s1 & E1 & X1 & F1).
  destruct (finish_attrs_spec (attrs r) s1) as (out & s2 & E2 & X2 & F2).
  rewrite (bind_Ok E1), (bind_Ok E2). eexists. exists s2.
  split; [reflexivity|]. simpl. split; [eauto using extends_trans|].
  split; [|split; [|reflexivity]].
  - eapply Forall2_impl; [|exact F1]. intros t t'.
    apply finished_tag_mono; auto using extends_refl.
  - eapply Forall2_impl; [|exact F2]. intros a a'.
    apply finished_attr_mono; auto using extends_refl.
Qed.

Lemma Forall2_In_left {A B : Type} (R : A -> B -> Prop) (l : list A)
    (l' : list B) (x : A) :
  Forall2 R l l' -> In x l -> exists y, In y l' /\ R x y.
Proof.
  induction 1 as [|a b l l' Hab _ IH]; simpl; [tauto|].
  intros [->|Hin].
  - exists b. auto.
  - destruct (IH Hin) as (y & Hy & Hr). exists y. auto.
Qed.

Lemma Forall2_In_right {A B : Type} (R : A -> B -> Prop) (l : list A)
    (l' : list B) (y : B) :
  Forall2 R l l' -> In y l' -> exists x, In x l /\ R x y.
Proof.
  induction 1 as [|a b l l' Hab _ IH]; simpl; [tauto|].
  intros [->|Hin].
  - exists a. auto.
  - destruct (IH Hin) as (x & Hx & Hr). exists x. auto.
Qed.

Lemma Forall2_map_eq {A B C : Type} (f : A -> C) (g : B -> C) (l : list A)
    (l' : list B) :
  Forall2 (fun x y => g y = f x) l l' -> map g l' = map f l.
Proof. induction 1; simpl; congruence. Qed.

Lemma finished_attr_fields (s s' : State) (a a' : HtmlAttr) :
  finished_attr s s' a a' ->
  name a' = name a /\ fromTagName a' = fromTagName a /\
  builtIn a' = Some true.
Proof. intros (-> & _). auto. Qed.

Lemma finished_tag_fields (s s' : State) (t t' : HtmlTag) :
  finished_tag s s' t t' ->
  tagName t' = tagName t /\ events t' = events t /\
  properties t' = properties t /\ tagBuiltIn t' = Some true.
Proof. intros (-> & _). auto. Qed.

(** ** [getBuiltInHtmlCollection] *)

(** When the normalizer accepts the baseline, the builder returns; its
    collection is the normalizer's, patched and finished. *)
Lemma getBuiltInHtmlCollection_spec (s s1 : State) (r : HtmlDataCollection) :
  parseHtmlData baseline s = (Ok r, s1) ->
  exists r' s2 c s',
    getBuiltInHtmlCollection s = (Ok c, s') /\
    patch r s1 = (Ok r', s2) /\
    extends s2 s' /\
    Forall2 (finished_tag s2 s') (tags r') (tags c) /\
    Forall2 (finished_attr s2 s') (attrs r') (attrs c) /\
    globalEvents c = map (with_builtIn true) (globalEvents r').
Proof.
  intro E. unfold getBuiltInHtmlCollection.
  destruct (patch_spec r s1) as (r' & s2 & _ & _ & E2 & _).
  destruct (finish_spec r' s2) as (c & s' & E3 & X3 & F).
  exists r', s2, c, s'. rewrite (bind_Ok E), (bind_Ok E2). auto.
Qed.

(** X6: what the final maps do mark: every tag, every attribute of a tag,
    every global attribute and every global event is built-in.  Events and
    properties of a tag are returned as they were. *)
Lemma builtIn_marked (s s1 : State) (r : HtmlDataCollection) :
  parseHtmlData baseline s = (Ok r, s1) ->
  exists c s',
    getBuiltInHtmlCollection s = (Ok c, s') /\
    (forall t, In t (tags c) ->
       tagBuiltIn t = Some true /\
       forall a, In a (attributes t) -> builtIn a = Some true) /\
    (forall a, In a (attrs c) -> builtIn a = Some true) /\
    (forall e, In e (globalEvents c) -> builtIn e = Some true).
Proof.
  intro E.
  destruct (getBuiltInHtmlCollection_spec _ E)
    as (r' & s2 & c & s' & Ec & _ & _ & Ft & Fa & Fe).
  exists c, s'. split; [exact Ec|]. repeat split.
  - destruct (Forall2_In_right _ Ft H) as (t0 & _ & H0).
    now apply finished_tag_fields in H0.
  - intros a Ha.
    destruct (Forall2_In_right _ Ft H) as (t0 & _ & (_ & H0)).
    destruct (Forall2_In_right _ H0 Ha) as (a0 & _ & H1).
    now apply finished_attr_fields in H1.
  - intros a Ha. destruct (Forall2_In_right _ Fa Ha) as (a0 & _ & H1).
    now apply finished_attr_fields in H1.
  - intros e He. rewrite Fe in He. apply in_map_iff in He.
    destruct He as (e0 & <- & _). reflexivity.
Qed.

(** X7: the events of the tags the normalizer returns are passed through: the
    returned collection has a tag of the same name with the same events,
    flags included. *)
Lemma tag_events_returned_as_normalized (s s1 : State)
    (r : HtmlDataCollection) (t : HtmlTag) :
  parseHtmlData baseline s = (Ok r, s1) ->
  In t (tags r) ->
  exists c s' t',
    getBuiltInHtmlCollection s = (Ok c, s') /\
    In t' (tags c) /\ tagName t' = tagName t /\ events t' = events t.
Proof.
  intros E Hin.
  destruct (getBuiltInHtmlCollection_spec _ E)
    as (r' & s2 & c & s' & Ec & Ep & _ & Ft & _ & _).
  destruct (patch_spec r s1)
    as (r'' & s2' & a0 & evs & Ep' & _ & _ & _ & _ & _ & K).
  rewrite Ep in Ep'. injection Ep' as <- <-.
  destruct (K t Hin) as (t1 & I1 & N1 & E1).
  destruct (Forall2_In_left _ Ft I1) as (t' & I' & Hf).
  apply finished_tag_fields in Hf. destruct Hf as (N' & E' & _).
  exists c, s', t'. split; [exact Ec|]. split; [exact I'|].
  split; congruence.
Qed.

(** C4: for every entry of the baseline event list [HTML5_EVENTS], the
    collection returned by [getBuiltInHtmlCollection] contains a global
    event with [builtIn] true whose name is the entry's name with one
    leading [on] removed: [rest] for an entry named [on] followed by
    [rest], and the entry's own name if it does not start with [on].  (The
    builder returns whenever the normalizer accepts the baseline.) *)
Theorem builtin_bare_event_names (s s1 : State) (r : HtmlDataCollection) :
  parseHtmlData baseline s = (Ok r, s1) ->
  exists c s',
    getBuiltInHtmlCollection s = (Ok c, s') /\
    forall e, In e HTML5_EVENTS ->
      exists ev, In ev (globalEvents c) /\
                 bare_name (attrDataName e) (name ev) /\
                 builtIn ev = Some true.
Proof.
  intro E.
  destruct (getBuiltInHtmlCollection_spec _ E)
    as (r' & s2 & c & s' & Ec & Ep & _ & _ & _ & Fe).
  destruct (patch_spec r s1)
    as (r'' & s2' & a & evs & Ep' & _ & _ & _ & (Hev & Fev) & _ & _).
  rewrite Ep in Ep'. injection Ep' as <- <-.
  exists c, s'. split; [exact Ec|]. intros e He.
  destruct (Forall2_In_left _ Fev He) as (ev & Hin & Hn & _ & _).
  exists (with_builtIn true ev). rewrite Fe, Hev. split.
  - apply in_map. apply in_or_app. now right.
  - split; [|reflexivity]. simpl. rewrite Hn. apply strip_on_bare_name.
Qed.

(** C8: the builder is additive over the normalizer's output: every tag
    (by [tagName]), every global attribute and every global event (by
    [name]) of the normalized baseline is still in the returned
    collection. *)
Theorem builtin_keeps_normalized_entities (s s1 : State)
    (r : HtmlDataCollection) :
  parseHtmlData baseline s = (Ok r, s1) ->
  exists c s',
    getBuiltInHtmlCollection s = (Ok c, s') /\
    (forall t, In t (tags r) ->
       exists t', In t' (tags c) /\ tagName t' = tagName t) /\
    (forall a, In a (attrs r) ->
       exists a', In a' (attrs c) /\ name a' = name a) /\
    (forall e, In e (globalEvents r) ->
       exists e', In e' (globalEvents c) /\ name e' = name e).
Proof.
  intro E.
  destruct (getBuiltInHtmlCollection_spec _ E)
    as (r' & s2 & c & s' & Ec & Ep & _ & Ft & Fa & Fe).
  destruct (patch_spec r s1)
    as (r'' & s2' & a0 & evs & Ep' & _ & Ht & (Ha & _) & (Hev & _) & _ & _).
  rewrite Ep in Ep'. injection Ep' as <- <-.
  assert (Nt : map tagName (tags c) = map tagName (tags r')).
  { apply Forall2_map_eq. eapply Forall2_impl; [|exact Ft].
    intros t t' H. now apply finished_tag_fields in H. }
  exists c, s'. split; [exact Ec|]. repeat split.
  - intros t Hin.
    assert (H : In (tagName t) (map tagName (tags c))).
    { rewrite Nt, Ht. apply in_or_app. left. now apply in_map. }
    apply in_map_iff in H. destruct H as (t' & H1 & H2). eauto.
  - intros a Hin.
    assert (H : In a (attrs r')).
    { rewrite Ha. apply in_or_app. now left. }
    destruct (Forall2_In_left _ Fa H) as (a' & Hin' & Hf).
    apply finished_attr_fields in Hf. exists a'. tauto.
  - intros e Hin. exists (with_builtIn true e). rewrite Fe, Hev.
    split; [|reflexivity]. apply in_map. apply in_or_app. now left.
Qed.

(** The [video] patch for any Type Resolver: if the normalized baseline
    has a tag named [video], the returned collection has a [video] tag
    whose attributes include [controlslist] and [playsinline], both with
    [builtIn] true and [fromTagName] [video]; [controlslist] has the
    string type and [playsinline] the boolean type unless the resolver
    special-cases the name, and then the type is the resolver's answer
    for it. *)
Lemma video_patch_attributes (s s1 : State) (r : HtmlDataCollection) :
  parseHtmlData baseline s = (Ok r, s1) ->
  (exists t, In t (tags r) /\ tagName t = "video") ->
  exists c s' t a1 a2,
    getBuiltInHtmlCollection s = (Ok c, s') /\
    In t (tags c) /\ tagName t = "video" /\
    In a1 (attributes t) /\ In a2 (attributes t) /\
    (name a1 = "controlslist" /\ fromTagName a1 = Some "video" /\
     builtIn a1 = Some true /\
     fst (call (getType a1) s')
     = Ok (if hasTypeForAttrName "controlslist"
           then html5TagAttrType "controlslist"
           else TypeOfKind STRING)) /\
    (name a2 = "playsinline" /\ fromTagName a2 = Some "video" /\
     builtIn a2 = Some true /\
     fst (call (getType a2) s')
     = Ok (if hasTypeForAttrName "playsinline"
           then html5TagAttrType "playsinline"
           else TypeOfKind BOOLEAN)).
Proof.
  intros E (tv & Hin & Hname).
  destruct (getBuiltInHtmlCollection_spec _ E)
    as (r' & s2 & c & s' & Ec & Ep & Xf & Ft & _ & _).
  destruct (patch_spec r s1)
    as (r'' & s2' & a0 & evs & Ep' & _ & _ & _ & _ & Hv & _).
  rewrite Ep in Ep'. injection Ep' as <- <-.
  destruct Hv as (t0 & g1 & g2 & I0 & N0 & L1 & L2 & R1 & R2).
  { rewrite <- Hname. now apply in_map. }
  destruct (Forall2_In_left _ Ft I0) as (t' & Hin' & Htag & Fa).
  simpl in Fa. apply Forall2_app_inv_l in Fa.
  destruct Fa as (out0 & out1 & _ & F1 & Eout).
  inversion F1 as [|x1 a1 l1 l1' Ha1 F2]; subst.
  inversion F2 as [|x2 a2 l2 l2' Ha2 F3]; subst.
  inversion F3; subst.
  exists c, s', t', a1, a2. split; [exact Ec|]. split; [exact Hin'|].
  split; [rewrite Htag; exact N0|].
  split; [rewrite Eout; apply in_or_app; right; simpl; auto|].
  split; [rewrite Eout; apply in_or_app; right; simpl; auto|].
  destruct Xf as (_ & _ & Rf).
  split.
  - destruct Ha1 as (Hc & Hb). specialize (Hb L1).
    rewrite call_returns_resolved.
    unfold backfilled, backfill_condition in Hb. simpl in Hb.
    rewrite R1 in Hb. simpl in Hb. rewrite orb_false_r in Hb.
    destruct (hasTypeForAttrName "controlslist").
    + destruct Hb as (_ & _ & Hr). rewrite Hr.
      repeat split; rewrite Hc; reflexivity.
    + rewrite Hb. simpl. rewrite Rf by exact L1. rewrite R1. auto.
  - destruct Ha2 as (Hc & Hb). specialize (Hb L2).
    rewrite call_returns_resolved.
    unfold backfilled, backfill_condition in Hb. simpl in Hb.
    rewrite R2 in Hb. simpl in Hb. rewrite orb_false_r in Hb.
    destruct (hasTypeForAttrName "playsinline").
    + destruct Hb as (_ & _ & Hr). rewrite Hr.
      repeat split; rewrite Hc; reflexivity.
    + rewrite Hb. simpl. rewrite Rf by exact L2. rewrite R2. auto.
Qed.

(** C5: with a Type Resolver that special-cases neither [controlslist]
    nor [playsinline], if the normalized baseline contains a tag named
    [video], then in the returned collection a [video] tag's attributes
    include an entry named [controlslist] whose type is the string type
    and an entry named [playsinline] whose type is the boolean type, both
    with [builtIn] true and [fromTagName] [video]. *)
Theorem video_attributes_string_and_boolean (s s1 : State)
    (r : HtmlDataCollection) :
  hasTypeForAttrName "controlslist" = false ->
  hasTypeForAttrName "playsinline" = false ->
  parseHtmlData baseline s = (Ok r, s1) ->
  (exists t, In t (tags r) /\ tagName t = "video") ->
  exists c s' t a1 a2,
    getBuiltInHtmlCollection s = (Ok c, s') /\
    In t (tags c) /\ tagName t = "video" /\
    In a1 (attributes t) /\ In a2 (attributes t) /\
    (name a1 = "controlslist" /\ fromTagName a1 = Some "video" /\
     builtIn a1 = Some true /\
     fst (call (getType a1) s') = Ok (TypeOfKind STRING)) /\
    (name a2 = "playsinline" /\ fromTagName a2 = Some "video" /\
     builtIn a2 = Some true /\
     fst (call (getType a2) s') = Ok (TypeOfKind BOOLEAN)).
Proof.
  intros H1 H2 E Hv.
  destruct (video_patch_attributes s E Hv)
    as (c & s' & t & a1 & a2 & Ec & It & Nt & I1 & I2
        & (N1 & F1 & B1 & T1) & (N2 & F2 & B2 & T2)).
  rewrite H1 in T1. rewrite H2 in T2.
  exists c, s', t, a1, a2. repeat (split; [assumption|]). auto.
Qed.

(** ** [getUserConfigHtmlCollection] *)

Lemma try_source_caught (collection : HtmlDataCollection)
    (src : DataSource) (s s1 : State) (e : Err) :
  merge_source collection src s = (Throw e, s1) ->
  try_source collection src s = (Ok collection, logged e s1).
Proof. intro E. unfold try_source, try_catch. now rewrite E. Qed.

Lemma try_source_returns (collection : HtmlDataCollection)
    (src : DataSource) (s : State) :
  exists c' s', try_source collection src s = (Ok c', s').
Proof.
  unfold try_source, try_catch.
  destruct (merge_source collection src s) as [[c'|e] s1];
    do 2 eexists; reflexivity.
Qed.

Lemma for_each_source_returns (l : list DataSource)
    (collection : HtmlDataCollection) (s : State) :
  exists c' s', for_each_source l collection s = (Ok c', s').
Proof.
  revert collection s. induction l as [|src l IH]; intros c s; simpl.
  - do 2 eexists; reflexivity.
  - destruct (try_source_returns c src s) as (c1 & s1 & E1).
    rewrite (bind_Ok E1). apply IH.
Qed.

Lemma for_each_source_app (l1 l2 : list DataSource)
    (c c1 : HtmlDataCollection) (s s1 : State) :
  for_each_source l1 c s = (Ok c1, s1) ->
  for_each_source (l1 ++ l2) c s = for_each_source l2 c1 s1.
Proof.
  revert c s. induction l1 as [|src l1 IH]; intros c s; simpl.
  - now intros [= -> ->].
  - destruct (try_source_returns c src s) as (c' & s' & E').
    rewrite !(bind_Ok E'). apply IH.
Qed.

Lemma synthesized_mono (k : EntityKind) (s0 s1 s2 s3 : State) (n : string)
    (m : HtmlMember) :
  extends s0 s1 -> extends s1 s2 -> extends s2 s3 ->
  synthesized k s1 s2 n m -> synthesized k s0 s3 n m.
Proof.
  intros (_ & N1 & _) (_ & N2 & _) (_ & N3 & R3) (Hm & Hn & Hr).
  repeat split; auto; try lia. rewrite R3 by lia. exact Hr.
Qed.

Lemma global_attr_spec (n : string) (s : State) :
  exists a s',
    global_attr n s = (Ok a, s') /\ extends s s' /\
    synthesized KAttribute s s' n a.
Proof.
  unfold global_attr.
  destruct (lazy_spec (fun _ => TypeOfKind ANY) s) as (s1 & E & Hx & N & R).
  rewrite (bind_Ok E). eexists. exists s1. split; [reflexivity|].
  split; [exact Hx|]. repeat split; simpl; auto; lia.
Qed.

Lemma global_event_spec (n : string) (s : State) :
  exists a s',
    global_event n s = (Ok a, s') /\ extends s s' /\
    synthesized KEvent s s' n a.
Proof.
  unfold global_event.
  destruct (lazy_spec (fun _ => TypeOfKind ANY) s) as (s1 & E & Hx & N & R).
  rewrite (bind_Ok E). eexists. exists s1. split; [reflexivity|].
  split; [exact Hx|]. repeat split; simpl; auto; lia.
Qed.

(** The builder never throws; what it returns is the entities made from
    the flat name lists, followed by the collection left by the loop over
    the sources. *)
Lemma getUserConfigHtmlCollection_spec (config : Config) (s : State) :
  exists cl sl attrs0 events0 s',
    for_each_source (sources_of (customHtmlData config)) empty_collection s
    = (Ok cl, sl) /\
    getUserConfigHtmlCollection config s
    = (Ok (mkCollection
             (map global_tag (globalHtmlTags config) ++ tags cl)
             (attrs0 ++ attrs cl)
             (events0 ++ globalEvents cl)), s') /\
    extends sl s' /\
    Forall2 (synthesized KAttribute sl s') (globalHtmlAttributes config)
            attrs0 /\
    Forall2 (synthesized KEvent sl s') (globalHtmlEvents config) events0.
Proof.
  unfold getUserConfigHtmlCollection.
  destruct (for_each_source_returns (sources_of (customHtmlData config))
              empty_collection s) as (cl & sl & El).
  destruct (mapM_spec global_attr (synthesized KAttribute) global_attr_spec
              (synthesized_mono (k:=KAttribute))
              (globalHtmlAttributes config) sl) as (a0 & s1 & E1 & X1 & F1).
  destruct (mapM_spec global_event (synthesized KEvent) global_event_spec
              (synthesized_mono (k:=KEvent))
              (globalHtmlEvents config) s1) as (e0 & s2 & E2 & X2 & F2).
  exists cl, sl, a0, e0, s2.
  rewrite (bind_Ok El), (bind_Ok E1), (bind_Ok E2).
  split; [exact El|]. split; [reflexivity|].
  split; [eauto using extends_trans|]. split.
  - eapply Forall2_impl; [|exact F1]. intros n a.
    apply synthesized_mono; auto using extends_refl.
  - eapply Forall2_impl; [|exact F2]. intros n a.
    apply synthesized_mono; auto using extends_refl.
Qed.

Lemma synthesized_names (k : EntityKind) (s s' : State) (names : list string)
    (l : list HtmlMember) :
  Forall2 (synthesized k s s') names l -> map name l = names.
Proof.
  intro F. rewrite <- (map_id names). apply Forall2_map_eq.
  eapply Forall2_impl; [|exact F]. intros n m (-> & _). reflexivity.
Qed.

(** The loop over the sources against its specification. *)

Lemma resolve_source_resolves (src : DataSource) (s : State) :
  resolves_to (world s) src (fst (resolve_source src s)) /\
  snd (resolve_source src s) = s.
Proof.
  destruct src as [p|d]; simpl; [|split; [constructor|reflexivity]].
  unfold bind, read_world. simpl.
  destruct (existsSync p (world s)) eqn:Ex; simpl.
  - destruct (readFileSync p (world s)) as [text|e] eqn:Er; simpl.
    + split; [now apply resolves_file|reflexivity].
    + split; [now apply resolves_unreadable|reflexivity].
  - split; [now apply resolves_pass_through|reflexivity].
Qed.

Lemma resolves_to_fun (w : World) (src : DataSource)
    (r1 r2 : result DataSource) :
  resolves_to w src r1 -> resolves_to w src r2 -> r1 = r2.
Proof.
  intros H1 H2. destruct H1; inversion H2; subst; congruence.
Qed.

Lemma merge_source_traced (c : HtmlDataCollection) (src : DataSource)
    (s : State) :
  merge_source c src s
  = (data <- resolve_source src ;;
     parsedCollection <- parseHtmlData data ;;
     tags' <- mergeHtmlTags (tags c ++ tags parsedCollection) ;;
     attrs' <- mergeHtmlAttrs (attrs c ++ attrs parsedCollection) ;;
     events' <- mergeHtmlEvents
                  (globalEvents c ++ globalEvents parsedCollection) ;;
     ret (mkCollection tags' attrs' events')) (traced src s).
Proof. reflexivity. Qed.

(** The [try] body does what the specification says of one source. *)
Lemma merge_source_outcome (c : HtmlDataCollection) (src : DataSource)
    (s s' : State) (r : result HtmlDataCollection) :
  merge_source c src s = (r, s') -> source_outcome c src s r s'.
Proof.
  rewrite merge_source_traced.
  destruct (resolve_source_resolves src (traced src s)) as (Hr & Hs).
  unfold bind.
  destruct (resolve_source src (traced src s)) as [[data|e] s0];
    simpl in Hr, Hs; subst s0.
  2: { intros [= <- <-]. now apply source_unresolved. }
  destruct (parseHtmlData data (traced src s)) as [[parsed|e] s1] eqn:Ep.
  2: { intros [= <- <-]. eapply source_rejected; eassumption. }
  destruct (mergeHtmlTags (tags c ++ tags parsed) s1) as [[tags'|e] s2]
    eqn:Et.
  2: { intros [= <- <-]. eapply source_tags_unmerged; eassumption. }
  destruct (mergeHtmlAttrs (attrs c ++ attrs parsed) s2) as [[attrs'|e] s3]
    eqn:Ea.
  2: { intros [= <- <-]. eapply source_attrs_unmerged; eassumption. }
  destruct (mergeHtmlEvents (globalEvents c ++ globalEvents parsed) s3)
    as [[events'|e] s4] eqn:Ee.
  2: { intros [= <- <-]. eapply source_events_unmerged; eassumption. }
  intros [= <- <-]. eapply source_merged; eassumption.
Qed.

Lemma source_outcome_fun (c : HtmlDataCollection) (src : DataSource)
    (s s1 s2 : State) (r1 r2 : result HtmlDataCollection) :
  source_outcome c src s r1 s1 -> source_outcome c src s r2 s2 ->
  r1 = r2 /\ s1 = s2.
Proof.
  intros H1 H2.
  destruct H1; inversion H2; subst;
    repeat match goal with
    | A : resolves_to ?w ?x ?r1, B : resolves_to ?w ?x ?r2 |- _ =>
        pose proof (resolves_to_fun A B) as E; clear B;
        try discriminate E; injection E as E; subst
    | A : ?f = (_, _), B : ?f = (_, _) |- _ =>
        rewrite A in B; try discriminate B; injection B as B; subst
    end; auto.
Qed.

Lemma source_outcome_merge_source (c : HtmlDataCollection)
    (src : DataSource) (s s1 : State) (r : result HtmlDataCollection) :
  source_outcome c src s r s1 -> merge_source c src s = (r, s1).
Proof.
  intro H. destruct (merge_source c src s) as [r' s1'] eqn:E.
  apply merge_source_outcome in E.
  now destruct (source_outcome_fun H E) as (-> & ->).
Qed.

(** The loop of the code returns what the specification's loop gives. *)
Lemma loop_outcome_for_each_source (l : list DataSource)
    (c c' : HtmlDataCollection) (s s' : State) :
  loop_outcome l c s c' s' -> for_each_source l c s = (Ok c', s').
Proof.
  induction 1 as [c s|src rest c c1 c' s s1 s' Ho _ IH
                  |src rest c c' e s s1 s' Ho _ IH]; simpl.
  - reflexivity.
  - apply source_outcome_merge_source in Ho.
    unfold bind, try_source, try_catch. rewrite Ho. exact IH.
  - apply source_outcome_merge_source in Ho.
    rewrite (bind_Ok (try_source_caught _ _ _ Ho)). exact IH.
Qed.

Lemma loop_outcome_exists (l : list DataSource) (c : HtmlDataCollection)
    (s : State) :
  exists c' s', loop_outcome l c s c' s'.
Proof.
  revert c s. induction l as [|src rest IH]; intros c s.
  - exists c, s. constructor.
  - destruct (merge_source c src s) as [[c1|e] s1] eqn:Ho;
      apply merge_source_outcome in Ho.
    + destruct (IH c1 s1) as (c' & s' & Hl).
      exists c', s'. eapply loop_kept; eassumption.
    + destruct (IH c (logged e s1)) as (c' & s' & Hl).
      exists c', s'. eapply loop_skipped; eassumption.
Qed.

(** C2: a failure of one custom data source is caught and the others are
    kept.  The sources always have an outcome in the sense of the
    specification: in order, a source that resolves, normalizes and merges
    replaces the running collection by the merged one, and a source that
    fails at any of these steps is logged and leaves the running
    collection as it was.  The builder returns, without throwing, the
    entities made from the global name lists followed by the collection of
    that outcome. *)
Theorem user_source_failure_is_skipped (config : Config) (s : State) :
  (exists cl sl,
      loop_outcome (sources_of (customHtmlData config)) empty_collection s
                   cl sl) /\
  forall cl sl,
    loop_outcome (sources_of (customHtmlData config)) empty_collection s
                 cl sl ->
    exists attrs0 events0 s',
      getUserConfigHtmlCollection config s
      = (Ok (mkCollection
               (map global_tag (globalHtmlTags config) ++ tags cl)
               (attrs0 ++ attrs cl)
               (events0 ++ globalEvents cl)), s') /\
      map name attrs0 = globalHtmlAttributes config /\
      map name events0 = globalHtmlEvents config.
Proof.
  split; [apply loop_outcome_exists|].
  intros cl sl Hl. apply loop_outcome_for_each_source in Hl.
  destruct (getUserConfigHtmlCollection_spec config s)
    as (cl' & sl' & a0 & e0 & s' & El & Ec & _ & Fa & Fe).
  rewrite Hl in El. injection El as <- <-.
  exists a0, e0, s'. split; [exact Ec|].
  split; eapply synthesized_names; eassumption.
Qed.

(** C6: with [globalHtmlTags] equal to [["my-widget"]] and custom data
    sources that contribute nothing, the returned collection has exactly
    one tag, named [my-widget], with no attributes, events, properties or
    slots; its global attributes and events are the ones made from
    [globalHtmlAttributes] and [globalHtmlEvents], and [getType] of each
    of them yields the wildcard type. *)
Theorem global_tag_only_collection (config : Config) (s s1 : State) :
  globalHtmlTags config = ["my-widget"] ->
  for_each_source (sources_of (customHtmlData config)) empty_collection s
  = (Ok empty_collection, s1) ->
  exists c s',
    getUserConfigHtmlCollection config s = (Ok c, s') /\
    tags c = [mkTag "my-widget" None [] [] [] [] None] /\
    map name (attrs c) = globalHtmlAttributes config /\
    map name (globalEvents c) = globalHtmlEvents config /\
    forall m, In m (attrs c) \/ In m (globalEvents c) ->
      fst (call (getType m) s') = Ok (TypeOfKind ANY).
Proof.
  intros Htags Hloop.
  destruct (getUserConfigHtmlCollection_spec config s)
    as (cl & sl & a0 & e0 & s' & El & Ec & _ & Fa & Fe).
  rewrite Hloop in El. injection El as <- <-.
  rewrite Htags in Ec. simpl in Ec. rewrite !app_nil_r in Ec.
  eexists. exists s'. split; [exact Ec|]. simpl.
  split; [reflexivity|].
  split; [eapply synthesized_names; eassumption|].
  split; [eapply synthesized_names; eassumption|].
  intros m [Hm|Hm]; rewrite call_returns_resolved.
  - destruct (Forall2_In_right _ Fa Hm) as (n & _ & _ & _ & Hr).
    now rewrite Hr.
  - destruct (Forall2_In_right _ Fe Hm) as (n & _ & _ & _ & Hr).
    now rewrite Hr.
Qed.

(** C9: a configuration whose [customHtmlData] is the single source [d]
    gives the same computation, hence the same collection, as the
    configuration whose [customHtmlData] is the array [[d]]. *)
Theorem single_source_as_array (d : DataSource)
    (globalTags globalAttributes globalEventNames : list string) :
  getUserConfigHtmlCollection
    (mkConfig (OneSource d) globalTags globalAttributes globalEventNames)
  = getUserConfigHtmlCollection
      (mkConfig (SourceArray [d]) globalTags globalAttributes
                globalEventNames).
Proof. reflexivity. Qed.

(** C10: the tags, attributes and events made from [globalHtmlTags],
    [globalHtmlAttributes] and [globalHtmlEvents] come first in the
    returned collection, carry those names, and have [builtIn] unset. *)
Theorem synthesized_entities_not_builtIn (config : Config) (s : State) :
  exists c s' tags0 attrs0 events0 cl,
    getUserConfigHtmlCollection config s = (Ok c, s') /\
    tags c = tags0 ++ tags cl /\
    attrs c = attrs0 ++ attrs cl /\
    globalEvents c = events0 ++ globalEvents cl /\
    map tagName tags0 = globalHtmlTags config /\
    map name attrs0 = globalHtmlAttributes config /\
    map name events0 = globalHtmlEvents config /\
    Forall (fun t => tagBuiltIn t = None) tags0 /\
    Forall (fun a => builtIn a = None) attrs0 /\
    Forall (fun e => builtIn e = None) events0.
Proof.
  destruct (getUserConfigHtmlCollection_spec config s)
    as (cl & sl & a0 & e0 & s' & El & Ec & _ & Fa & Fe).
  eexists. exists s', (map global_tag (globalHtmlTags config)), a0, e0, cl.
  split; [exact Ec|]. simpl. do 3 (split; [reflexivity|]).
  split; [rewrite map_map; apply map_id|].
  split; [eapply synthesized_names; eassumption|].
  split; [eapply synthesized_names; eassumption|].
  split; [|split].
  - apply Forall_forall. intros t Ht. apply in_map_iff in Ht.
    destruct Ht as (n & <- & _). reflexivity.
  - apply Forall_forall. intros a Ha.
    destruct (Forall2_In_right _ Fa Ha) as (n & _ & -> & _). reflexivity.
  - apply Forall_forall. intros a Ha.
    destruct (Forall2_In_right _ Fe Ha) as (n & _ & -> & _). reflexivity.
Qed.

Lemma Forall_Forall2_left {A B : Type} (Q : A -> Prop) (R : A -> B -> Prop)
    (l : list A) (l' : list B) :
  Forall Q l -> Forall2 R l l' -> Forall2 (fun x y => Q x /\ R x y) l l'.
Proof.
  intros HQ HR. induction HR; inversion HQ; subst; constructor; auto.
Qed.

Lemma backfill_condition_true (s : State) (attr : HtmlAttr) :
  backfill_condition s attr = true <->
  hasTypeForAttrName (name attr) = true \/
  kind (resolved s (getType attr)) = ANY.
Proof.
  unfold backfill_condition.
  rewrite orb_true_iff, SimpleTypeKind_eqb_eq. reflexivity.
Qed.

(** C3: [addMissingAttrTypes] gives an attribute a new [getType] exactly
    when the resolver special-cases its name ([hasTypeForAttrName]) or its
    type currently resolves to the [ANY] kind; the new accessor returns
    the Type Resolver's answer for the name and the other fields are
    kept; every other attribute is returned as it is.  The accessors of
    the attributes passed in exist in the state [s] of the call. *)
Theorem addMissingAttrTypes_replaces_iff (attrs : list HtmlAttr)
    (s : State) :
  Forall (live s) attrs ->
  exists out s',
    addMissingAttrTypes attrs s = (Ok out, s') /\
    Forall2
      (fun attr attr' =>
         (getType attr' <> getType attr <->
          hasTypeForAttrName (name attr) = true \/
          kind (resolved s (getType attr)) = ANY) /\
         (getType attr' <> getType attr ->
          attr' = with_getType (getType attr') attr /\
          fst (call (getType attr') s')
          = Ok (html5TagAttrType (name attr))) /\
         (getType attr' = getType attr -> attr' = attr))
      attrs out.
Proof.
  intro Hlive.
  destruct (addMissingAttrTypes_spec attrs s) as (out & s' & E & _ & F).
  exists out, s'. split; [exact E|].
  eapply Forall2_impl; [|exact (Forall_Forall2_left Hlive F)].
  intros attr attr' (Hl & Hcopy & Hb). specialize (Hb Hl).
  rewrite <- backfill_condition_true.
  unfold backfilled in Hb. unfold live in Hl.
  destruct (backfill_condition s attr).
  - destruct Hb as (_ & Hn & Hr).
    assert (Hne : getType attr' <> getType attr) by lia.
    split; [tauto|]. split; [|tauto].
    intros _. split; [exact Hcopy|].
    rewrite call_returns_resolved. now rewrite Hr.
  - subst attr'. split; [|split].
    + split; [tauto|discriminate].
    + tauto.
    + reflexivity.
Qed.

(** ** Accessors made by the builders *)

Lemma memoizes_resolved (g : Accessor) (s : State) :
  memoizes s g (resolved s g).
Proof.
  destruct (call_spec g s) as (s1 & E & _ & _ & C & _).
  exists s1. split; [exact E|]. split; [exact C|].
  split; [unfold call; now rewrite C|].
  intro w. unfold call, in_world. simpl. now rewrite C.
Qed.

Lemma memoizes_pending (g : Accessor) (s : State) (T : SimpleType) :
  cells s g = Pending (fun _ => T) -> memoizes s g T.
Proof.
  intro H. assert (E : resolved s g = T) by (unfold resolved; now rewrite H).
  rewrite <- E. apply memoizes_resolved.
Qed.

Lemma call_cells (g : Accessor) (s : State) :
  exists v s',
    call g s = (Ok v, s') /\ next s' = next s /\
    forall l, l <> g -> cells s' l = cells s l.
Proof.
  unfold call. destruct (cells s g) as [f|v].
  - do 2 eexists. split; [reflexivity|]. split; [reflexivity|].
    intros l Hl. simpl. now apply set_cell_other.
  - do 2 eexists. split; [reflexivity|]. auto.
Qed.

Lemma lazy_cells (f : World -> SimpleType) (s : State) :
  exists s',
    lazy f s = (Ok (next s), s') /\ next s' = S (next s) /\
    cells s' (next s) = Pending f /\
    forall l, l <> next s -> cells s' l = cells s l.
Proof.
  eexists. split; [reflexivity|]. split; [reflexivity|]. simpl.
  split; [apply set_cell_same|]. intros l Hl. now apply set_cell_other.
Qed.

(** Mapping a name list to entities with [lazy] gives each entity an
    accessor of its own: consecutive new cells, none called yet, and no
    older cell touched. *)
Lemma mapM_lazy (k : EntityKind) (f : string -> M HtmlMember)
    (names : list string) (s : State) :
  (forall n,
      f n = (g <- lazy (fun _ => TypeOfKind ANY) ;;
             ret (mkMember (Some k) n None g None None))) ->
  exists out s',
    mapM f names s = (Ok out, s') /\
    next s' = next s + length names /\
    map getType out = seq (next s) (length names) /\
    map name out = names /\
    (forall l, l < next s -> cells s' l = cells s l) /\
    (forall l, next s <= l < next s' ->
               cells s' l = Pending (fun _ => TypeOfKind ANY)).
Proof.
  intro Hf. revert s. induction names as [|n names IH]; intro s.
  - exists [], s. simpl. repeat split; auto; intros; lia.
  - destruct (lazy_cells (fun _ => TypeOfKind ANY) s)
      as (s1 & E1 & N1 & C1 & K1).
    destruct (IH s1) as (out & s2 & E2 & N2 & G2 & M2 & K2 & P2).
    exists (mkMember (Some k) n None (next s) None None :: out), s2.
    simpl. rewrite Hf. rewrite (bind_Ok (bind_Ok E1)).
    change (ret (mkMember (Some k) n None (next s) None None) s1)
      with (Ok (mkMember (Some k) n None (next s) None None), s1).
    rewrite (bind_Ok E2).
    split; [reflexivity|]. split; [lia|].
    split; [now rewrite G2, N1|]. split; [now rewrite M2|]. split.
    + intros l Hl. rewrite K2 by lia. apply K1. lia.
    + intros l Hl. destruct (Nat.eq_dec l (next s)) as [->|Hne].
      * rewrite K2 by lia. exact C1.
      * apply P2. lia.
Qed.

Lemma addMissingAttrType_cells (a : HtmlAttr) (s : State) (n : nat) :
  getType a < n -> n <= next s ->
  exists a' s',
    addMissingAttrType a s = (Ok a', s') /\
    next s <= next s' /\
    (forall l, n <= l < next s -> cells s' l = cells s l) /\
    (getType a' = getType a \/
     (next s <= getType a' < next s' /\
      cells s' (getType a')
      = Pending (fun _ => html5TagAttrType (name a)))).
Proof.
  intros Ha Hn. unfold addMissingAttrType, needs_resolver_type.
  assert (Hlazy : forall s1,
             next s1 = next s ->
             (forall l, n <= l < next s -> cells s1 l = cells s l) ->
             exists a' s',
               (g <- lazy (fun _ => html5TagAttrType (name a)) ;;
                ret (with_getType g a)) s1 = (Ok a', s') /\
               next s <= next s' /\
               (forall l, n <= l < next s -> cells s' l = cells s l) /\
               (getType a' = getType a \/
                (next s <= getType a' < next s' /\
                 cells s' (getType a')
                 = Pending (fun _ => html5TagAttrType (name a))))).
  { intros s1 N1 K1.
    destruct (lazy_cells (fun _ => html5TagAttrType (name a)) s1)
      as (s2 & E2 & N2 & C2 & K2).
    exists (with_getType (next s1) a), s2. rewrite (bind_Ok E2).
    split; [reflexivity|]. split; [lia|]. split.
    - intros l Hl. rewrite K2 by lia. now apply K1.
    - right. simpl. split; [lia|exact C2]. }
  destruct (hasTypeForAttrName (name a)).
  - unfold bind at 1. simpl. apply Hlazy; auto.
  - destruct (call_cells (getType a) s) as (v & s1 & E1 & N1 & K1).
    rewrite (bind_Ok (bind_Ok E1)).
    change (ret (SimpleTypeKind_eqb (kind v) ANY) s1)
      with (Ok (SimpleTypeKind_eqb (kind v) ANY), s1).
    assert (K1' : forall l, n <= l < next s -> cells s1 l = cells s l).
    { intros l Hl. apply K1. lia. }
    destruct (SimpleTypeKind_eqb (kind v) ANY).
    + apply Hlazy; auto.
    + exists a, s1. split; [reflexivity|]. split; [lia|]. auto.
Qed.

Lemma addMissingAttrTypes_cells (attrs : list HtmlAttr) (s : State)
    (n : nat) :
  Forall (fun a => getType a < n) attrs -> n <= next s ->
  exists out s',
    addMissingAttrTypes attrs s = (Ok out, s') /\
    next s <= next s' /\
    (forall l, n <= l < next s -> cells s' l = cells s l) /\
    Forall2 (fun a a' =>
               getType a' = getType a \/
               (next s <= getType a' < next s' /\
                cells s' (getType a')
                = Pending (fun _ => html5TagAttrType (name a))))
            attrs out.
Proof.
  unfold addMissingAttrTypes. intro Hl. revert s.
  induction Hl as [|a rest Ha _ IH]; intros s Hn.
  - exists [], s. simpl. repeat split; auto.
  - destruct (@addMissingAttrType_cells a s n Ha Hn)
      as (a' & s1 & E1 & N1 & K1 & H1).
    destruct (IH s1) as (out & s2 & E2 & N2 & K2 & F2); [lia|].
    exists (a' :: out), s2. simpl. rewrite (bind_Ok E1), (bind_Ok E2).
    split; [reflexivity|]. split; [lia|]. split.
    + intros l Hl'. rewrite K2 by lia. now apply K1.
    + constructor.
      * destruct H1 as [H1|(H1 & C1)]; [now left|right].
        split; [lia|]. rewrite K2 by lia. exact C1.
      * eapply Forall2_impl; [|exact F2].
        intros x y [H|(H & C)]; [now left|right]. split; [lia|exact C].
Qed.

(** C7: [getType] of the attributes and events the builders produce is
    memoized.  (1) The attributes and events that
    [getUserConfigHtmlCollection] makes from the global name lists each
    have an accessor of their own, made by [lazy] for the wildcard type
    and not called yet when the builder returns; its first call returns
    the wildcard type and caches it, and a second call returns the cached
    descriptor.  (2) [addMissingAttrTypes] gives a back-filled attribute
    an accessor made by [lazy] for the resolver's answer, memoized in the
    same way, and leaves the memoized accessor of any other attribute in
    place.  (3) For every attribute or event of a collection returned by
    either builder, the first call of [getType] caches the descriptor it
    returns and a second call returns that same descriptor and changes
    nothing, even if the world has changed in between. *)
Theorem getType_memoized :
  (forall (config : Config) (s : State),
      exists c s' attrs0 events0 cl sl,
        for_each_source (sources_of (customHtmlData config))
                        empty_collection s = (Ok cl, sl) /\
        getUserConfigHtmlCollection config s = (Ok c, s') /\
        attrs c = attrs0 ++ attrs cl /\
        globalEvents c = events0 ++ globalEvents cl /\
        map name attrs0 = globalHtmlAttributes config /\
        map name events0 = globalHtmlEvents config /\
        NoDup (map getType (attrs0 ++ events0)) /\
        forall m, In m (attrs0 ++ events0) ->
          made_lazily sl s' (getType m) (TypeOfKind ANY) /\
          memoizes s' (getType m) (TypeOfKind ANY)) /\
  (forall (attrs : list HtmlAttr) (s : State),
      Forall (live s) attrs ->
      exists out s',
        addMissingAttrTypes attrs s = (Ok out, s') /\
        Forall2 (fun a a' =>
                   (getType a' <> getType a ->
                    made_lazily s s' (getType a')
                                (html5TagAttrType (name a)) /\
                    memoizes s' (getType a') (html5TagAttrType (name a))) /\
                   (getType a' = getType a ->
                    memoizes s' (getType a') (resolved s (getType a))))
                attrs out) /\
  (forall (config : Config) (s0 s : State) (c : HtmlDataCollection)
          (m : HtmlMember),
      getUserConfigHtmlCollection config s0 = (Ok c, s) \/
      getBuiltInHtmlCollection s0 = (Ok c, s) ->
      In m (members c) ->
      memoizes s (getType m) (resolved s (getType m))).
Proof.
  split; [|split].
  - intros config s. unfold getUserConfigHtmlCollection.
    destruct (for_each_source_returns (sources_of (customHtmlData config))
                empty_collection s) as (cl & sl & El).
    destruct (@mapM_lazy KAttribute global_attr
                (globalHtmlAttributes config) sl (fun n => eq_refl))
      as (a0 & s1 & E1 & N1 & G1 & M1 & K1 & P1).
    destruct (@mapM_lazy KEvent global_event
                (globalHtmlEvents config) s1 (fun n => eq_refl))
      as (e0 & s2 & E2 & N2 & G2 & M2 & K2 & P2).
    rewrite (bind_Ok El), (bind_Ok E1), (bind_Ok E2).
    eexists. exists s2, a0, e0, cl, sl.
    split; [exact El|]. split; [reflexivity|]. simpl.
    do 4 (split; [reflexivity || assumption|]).
    assert (Hg : map getType (a0 ++ e0)
                 = seq (next sl) (length (globalHtmlAttributes config)
                                  + length (globalHtmlEvents config))).
    { rewrite map_app, G1, G2, N1. symmetry. apply seq_app. }
    split; [exact (eq_ind_r (@NoDup nat) (seq_NoDup _ _) Hg)|].
    intros m Hm.
    assert (Hr : next sl <= getType m < next s2).
    { apply (in_map getType) in Hm.
      pose proof (eq_ind _ (In (getType m)) Hm _ Hg) as Hs.
      apply in_seq in Hs. lia. }
    assert (Hc : cells s2 (getType m) = Pending (fun _ => TypeOfKind ANY)).
    { destruct (Nat.lt_ge_cases (getType m) (next s1)) as [Hlt|Hge].
      - rewrite K2 by exact Hlt. apply P1. lia.
      - apply P2. lia. }
    split; [split; assumption|now apply memoizes_pending].
  - intros attrs s Hlive.
    destruct (@addMissingAttrTypes_cells attrs s (next s) Hlive (le_n _))
      as (out & s' & E & N & _ & F).
    destruct (addMissingAttrTypes_spec attrs s)
      as (out' & s'' & E' & (_ & _ & R) & _).
    rewrite E in E'. injection E' as <- <-.
    exists out, s'. split; [exact E|].
    eapply Forall2_impl; [|exact (Forall_Forall2_left Hlive F)].
    intros a a' (Hl & H). split.
    + intro Hne. destruct H as [H|(Hr & Hc)]; [contradiction|].
      split; [split; assumption|now apply memoizes_pending].
    + intros ->. rewrite <- (R _ Hl). apply memoizes_resolved.
  - intros config s0 s c m _ _. apply memoizes_resolved.
Qed.

(** ** More on [addMissingAttrTypes] *)

Lemma typed_extends (s s' : State) (g : Accessor) (T : SimpleType) :
  extends s s' -> typed s g T -> typed s' g T.
Proof.
  intros (_ & N & R) (Hl & Hr). split; [lia|]. now rewrite R.
Qed.
Arguments typed_extends {s s' g T} _ _.

(** The type an attribute has after the back-fill. *)
Lemma backfilled_type (s s' : State) (a a' : HtmlAttr) :
  extends s s' -> live s a -> backfilled s s' a a' ->
  resolved s' (getType a')
  = if backfill_condition s a then html5TagAttrType (name a)
    else resolved s (getType a).
Proof.
  intros (_ & _ & R) Hl Hb. unfold backfilled in Hb.
  destruct (backfill_condition s a).
  - now destruct Hb as (_ & _ & Hr).
  - subst a'. now apply R.
Qed.
Arguments backfilled_type {s s' a a'} _ _ _.

Lemma backfilled_live (s s' : State) (a a' : HtmlAttr) :
  extends s s' -> live s a -> backfilled s s' a a' -> live s' a'.
Proof.
  intros (_ & N & _) Hl Hb. unfold backfilled in Hb. unfold live in *.
  destruct (backfill_condition s a).
  - destruct Hb as (_ & Hn & _). lia.
  - subst a'. lia.
Qed.
Arguments backfilled_live {s s' a a'} _ _ _.

(** X1: what the back-fill returns differs from its input in nothing but
    [getType]: the result has the attributes of the input, in the same
    order, each with the same name, kind, description, owner and
    [builtIn] flag; and the world is left as it was. *)
Theorem addMissingAttrTypes_only_changes_getType (attrs out : list HtmlAttr)
    (s s' : State) :
  addMissingAttrTypes attrs s = (Ok out, s') ->
  world s' = world s /\
  Forall2 (fun attr attr' =>
             mkind attr' = mkind attr /\ name attr' = name attr /\
             description attr' = description attr /\
             fromTagName attr' = fromTagName attr /\
             builtIn attr' = builtIn attr)
          attrs out.
Proof.
  intro E.
  destruct (addMissingAttrTypes_spec attrs s)
    as (out' & s'' & E' & (W & _) & F).
  rewrite E in E'. injection E' as <- <-.
  split; [exact W|].
  eapply Forall2_impl; [|exact F].
  intros a a' (-> & _). repeat split.
Qed.

(** X2: after the back-fill an attribute has the Type Resolver's type for its
    name if the resolver special-cases the name or the attribute's type
    was of the [ANY] kind, and the type it had otherwise; the accessors
    that existed before still return what they returned. *)
Theorem addMissingAttrTypes_types (attrs : list HtmlAttr) (s : State) :
  Forall (live s) attrs ->
  exists out s',
    addMissingAttrTypes attrs s = (Ok out, s') /\
    (forall g, g < next s -> resolved s' g = resolved s g) /\
    Forall2 (fun attr attr' =>
               fst (call (getType attr') s')
               = Ok (if hasTypeForAttrName (name attr)
                        || SimpleTypeKind_eqb
                             (kind (resolved s (getType attr))) ANY
                     then html5TagAttrType (name attr)
                     else resolved s (getType attr)))
            attrs out.
Proof.
  intro Hlive.
  destruct (addMissingAttrTypes_spec attrs s) as (out & s' & E & Hx & F).
  exists out, s'. split; [exact E|]. split; [apply Hx|].
  eapply Forall2_impl; [|exact (Forall_Forall2_left Hlive F)].
  intros a a' (Hl & _ & Hb). rewrite call_returns_resolved.
  now rewrite (backfilled_type Hx Hl (Hb Hl)).
Qed.

(** X3: running the back-fill on its own result changes no type: the second
    run returns attributes with the same fields and the same types as the
    first. *)
Theorem addMissingAttrTypes_twice (attrs : list HtmlAttr) (s : State) :
  Forall (live s) attrs ->
  exists out s1 out2 s2,
    addMissingAttrTypes attrs s = (Ok out, s1) /\
    addMissingAttrTypes out s1 = (Ok out2, s2) /\
    Forall2 (fun a1 a2 =>
               a2 = with_getType (getType a2) a1 /\
               fst (call (getType a2) s2) = fst (call (getType a1) s1))
            out out2.
Proof.
  intro Hlive.
  destruct (addMissingAttrTypes_spec attrs s) as (out & s1 & E1 & X1 & F1).
  destruct (addMissingAttrTypes_spec out s1) as (out2 & s2 & E2 & X2 & F2).
  exists out, s1, out2, s2. split; [exact E1|]. split; [exact E2|].
  pose proof (Forall_Forall2_left Hlive F1) as G1. clear F1 Hlive E1 E2.
  revert out2 F2. induction G1 as [|a a1 l l1 (Hl & Hc & Hb) _ IH];
    intros out2 F2; inversion F2 as [|x a2 y l2 (Hc2 & Hb2) F2']; subst;
    constructor; [|now apply IH].
  split; [exact Hc2|]. rewrite !call_returns_resolved.
  specialize (Hb Hl).
  pose proof (backfilled_live X1 Hl Hb) as Hl1.
  rewrite (backfilled_type X2 Hl1 (Hb2 Hl1)).
  pose proof (backfilled_type X1 Hl Hb) as T1.
  assert (Hn : name a1 = name a) by (rewrite Hc; reflexivity).
  unfold backfill_condition at 1. rewrite Hn.
  unfold backfill_condition in T1.
  destruct (hasTypeForAttrName (name a)).
  { rewrite !orb_true_l in *. now rewrite T1. }
  rewrite !orb_false_l in *.
  destruct (SimpleTypeKind_eqb (kind (resolved s1 (getType a1))) ANY) eqn:K;
    [|reflexivity].
  destruct (SimpleTypeKind_eqb (kind (resolved s (getType a))) ANY) eqn:K0.
  { now rewrite T1. }
  rewrite T1 in K. congruence.
Qed.

(** ** The patches in detail *)

Lemma appended_refl (t : HtmlTag) : appended [] [] t t.
Proof. unfold appended. now rewrite !app_nil_r. Qed.

Lemma grown_refl (t : HtmlTag) : grown t t.
Proof. exists [], []. split; [apply appended_refl|auto]. Qed.

Lemma grown_trans (t1 t2 t3 : HtmlTag) :
  grown t1 t2 -> grown t2 t3 -> grown t1 t3.
Proof.
  intros (ps & xs & (N & D & E & S & B & Hp & Ha) & Pp & Pa)
         (ps' & xs' & (N' & D' & E' & S' & B' & Hp' & Ha') & Pp' & Pa').
  exists (ps ++ ps'), (xs ++ xs'). split; [|split].
  - unfold appended. rewrite !app_assoc, <- Hp, <- Ha.
    repeat split; congruence.
  - destruct Pp as [->|Pp]; [|now right].
    destruct Pp' as [->|Pp']; [now left|right]. now rewrite <- N.
  - destruct Pa as [->|Pa]; [|now right].
    destruct Pa' as [->|Pa']; [now left|right]. now rewrite <- N.
Qed.

Lemma Forall2_refl {A : Type} (R : A -> A -> Prop) (l : list A) :
  (forall x, R x x) -> Forall2 R l l.
Proof. intro H. induction l; constructor; auto. Qed.

Lemma Forall2_trans {A : Type} (R : A -> A -> Prop) (l1 l2 l3 : list A) :
  (forall x y z, R x y -> R y z -> R x z) ->
  Forall2 R l1 l2 -> Forall2 R l2 l3 -> Forall2 R l1 l3.
Proof.
  intros Ht H12. revert l3.
  induction H12; intros l3 H23; inversion H23; subst; constructor; eauto.
Qed.

Lemma patched_at_found (n : string) (ps : list HtmlProp)
    (xs : list HtmlAttr) (f : HtmlTag -> HtmlTag) (r : HtmlDataCollection)
    (t : HtmlTag) :
  find (has_tagName n) (tags r) = Some t ->
  (forall x, appended ps xs x (f x)) ->
  patched_at n ps xs r (update_tag n f r).
Proof.
  intros F Hf. unfold patched_at. rewrite F.
  split; [reflexivity|]. split; [reflexivity|].
  destruct (update_first_found (has_tagName n) f _ F) as (l1 & l2 & E1 & E2).
  exists l1, l2, (f t). simpl. auto.
Qed.

Lemma patched_at_none (n : string) (ps : list HtmlProp)
    (xs : list HtmlAttr) (r : HtmlDataCollection) :
  find (has_tagName n) (tags r) = None -> patched_at n ps xs r r.
Proof. intro F. unfold patched_at. now rewrite F. Qed.

Lemma find_has_tagName (n : string) (l : list HtmlTag) (t : HtmlTag) :
  find (has_tagName n) l = Some t -> tagName t = n.
Proof.
  intro F. apply find_some in F. destruct F as (_ & F).
  now apply String.eqb_eq.
Qed.

(** A patch at [n] lets the tags only grow. *)
Lemma patched_at_grown (n : string) (ps : list HtmlProp)
    (xs : list HtmlAttr) (r r' : HtmlDataCollection) :
  (ps = [] \/ In n ["textarea"; "input"]) ->
  (xs = [] \/ In n ["audio"; "video"]) ->
  patched_at n ps xs r r' -> Forall2 grown (tags r) (tags r').
Proof.
  intros Pp Pa (_ & _ & H).
  destruct (find (has_tagName n) (tags r)) as [t|] eqn:F.
  - destruct H as (l1 & l2 & t' & -> & -> & Ht).
    apply find_has_tagName in F.
    apply Forall2_app; [apply Forall2_refl, grown_refl|].
    constructor; [|apply Forall2_refl, grown_refl].
    exists ps, xs. rewrite F. auto.
  - rewrite H. apply Forall2_refl, grown_refl.
Qed.

(** A patch at [n] keeps every tag with another name. *)
Lemma patched_at_other (n : string) (ps : list HtmlProp)
    (xs : list HtmlAttr) (r r' : HtmlDataCollection) (x : HtmlTag) :
  patched_at n ps xs r r' -> tagName x <> n ->
  In x (tags r) -> In x (tags r').
Proof.
  intros (_ & _ & H) Hn Hin.
  destruct (find (has_tagName n) (tags r)) as [t|] eqn:F.
  - destruct H as (l1 & l2 & t' & E & -> & _).
    apply find_has_tagName in F. rewrite E in Hin.
    apply in_app_or in Hin. apply in_or_app.
    destruct Hin as [Hin|[->|Hin]]; [now left|congruence|right; now right].
  - now rewrite H.
Qed.

(** A patch at [n] appends to a tag named [n], if there is one. *)
Lemma patched_at_here (n : string) (ps : list HtmlProp)
    (xs : list HtmlAttr) (r r' : HtmlDataCollection) :
  patched_at n ps xs r r' -> In n (map tagName (tags r)) ->
  exists t t', In t' (tags r') /\ tagName t' = n /\ appended ps xs t t'.
Proof.
  intros (_ & _ & H) Hin.
  destruct (find_tagName _ _ Hin) as (t & F & Hn). rewrite F in H.
  destruct H as (l1 & l2 & t' & _ & -> & Ht).
  exists t, t'. split; [apply in_or_app; right; now left|].
  split; [|exact Ht]. destruct Ht as (N & _). congruence.
Qed.

Lemma push_value_property_detail (n : string) (r : HtmlDataCollection)
    (s : State) :
  exists r' s' g,
    push_value_property n r s = (Ok r', s') /\ extends s s' /\
    patched_at n [value_property n g] [] r r' /\
    (In n (map tagName (tags r)) -> typed s' g nullable_string).
Proof.
  unfold push_value_property.
  destruct (find (has_tagName n) (tags r)) as [t|] eqn:F.
  - destruct (lazy_spec (fun _ => nullable_string) s)
      as (s1 & E1 & X1 & N1 & R1).
    unfold nullable_string in E1. rewrite (bind_Ok E1).
    eexists. exists s1, (next s). split; [reflexivity|].
    split; [exact X1|]. split.
    + eapply patched_at_found; [exact F|]. intro x. unfold appended. simpl.
      rewrite app_nil_r. repeat split.
    + intros _. split; [lia|exact R1].
  - exists r, s, 0. split; [reflexivity|]. split; [apply extends_refl|].
    split; [now apply patched_at_none|].
    intro Hin. destruct (find_tagName _ _ Hin) as (t & F' & _). congruence.
Qed.

Lemma patch_audio_detail (r : HtmlDataCollection) (s : State) :
  exists r' s' g,
    patch_audio r s = (Ok r', s') /\ extends s s' /\
    patched_at "audio" [] [audio_controlslist g] r r' /\
    (In "audio" (map tagName (tags r)) -> typed s' g (TypeOfKind STRING)).
Proof.
  unfold patch_audio.
  destruct (find (has_tagName "audio") (tags r)) as [t|] eqn:F.
  - destruct (lazy_spec (fun _ => TypeOfKind STRING) s)
      as (s1 & E1 & X1 & N1 & R1).
    rewrite (bind_Ok E1).
    eexists. exists s1, (next s). split; [reflexivity|].
    split; [exact X1|]. split.
    + eapply patched_at_found; [exact F|]. intro x. unfold appended. simpl.
      rewrite app_nil_r. repeat split.
    + intros _. split; [lia|exact R1].
  - exists r, s, 0. split; [reflexivity|]. split; [apply extends_refl|].
    split; [now apply patched_at_none|].
    intro Hin. destruct (find_tagName _ _ Hin) as (t & F' & _). congruence.
Qed.

Lemma patch_video_detail (r : HtmlDataCollection) (s : State) :
  exists r' s' g1 g2,
    patch_video r s = (Ok r', s') /\ extends s s' /\
    patched_at "video" [] [video_controlslist g1; video_playsinline g2]
               r r'.
Proof.
  unfold patch_video.
  destruct (find (has_tagName "video") (tags r)) as [t|] eqn:F.
  - destruct (lazy_spec (fun _ => TypeOfKind STRING) s)
      as (s1 & E1 & X1 & _).
    destruct (lazy_spec (fun _ => TypeOfKind BOOLEAN) s1)
      as (s2 & E2 & X2 & _).
    rewrite (bind_Ok E1), (bind_Ok E2).
    eexists. exists s2, (next s), (next s1). split; [reflexivity|].
    split; [eauto using extends_trans|].
    eapply patched_at_found; [exact F|]. intro x. unfold appended. simpl.
    rewrite app_nil_r. repeat split.
  - exists r, s, 0, 0. split; [reflexivity|]. split; [apply extends_refl|].
    now apply patched_at_none.
Qed.

Lemma push_slot_tag_detail (r : HtmlDataCollection) (s : State) :
  exists g_event g_name g_on s',
    push_slot_tag r s
    = (Ok (push_tag (slot_tag g_event g_name g_on) r), s') /\
    extends s s' /\
    typed s' g_event (TypeOfKind ANY) /\
    typed s' g_name (TypeOfKind STRING) /\
    typed s' g_on (TypeOfKind STRING).
Proof.
  unfold push_slot_tag.
  destruct (lazy_spec (fun _ => TypeOfKind ANY) s)
    as (s1 & E1 & X1 & N1 & R1).
  destruct (lazy_spec (fun _ => TypeOfKind STRING) s1)
    as (s2 & E2 & X2 & N2 & R2).
  destruct (lazy_spec (fun _ => TypeOfKind STRING) s2)
    as (s3 & E3 & X3 & N3 & R3).
  rewrite (bind_Ok E1), (bind_Ok E2), (bind_Ok E3).
  exists (next s), (next s1), (next s2), s3. split; [reflexivity|].
  split; [eauto using extends_trans|].
  assert (T1 : typed s1 (next s) (TypeOfKind ANY)) by (split; [lia|exact R1]).
  assert (T2 : typed s2 (next s1) (TypeOfKind STRING))
    by (split; [lia|exact R2]).
  assert (T3 : typed s3 (next s2) (TypeOfKind STRING))
    by (split; [lia|exact R3]).
  split; [|split]; eauto using typed_extends, extends_trans.
Qed.

Lemma push_slot_attr_detail (r : HtmlDataCollection) (s : State) :
  exists g s',
    push_slot_attr r s = (Ok (push_attr (slot_attr g) r), s') /\
    extends s s' /\ typed s' g (TypeOfKind STRING).
Proof.
  unfold push_slot_attr.
  destruct (lazy_spec (fun _ => TypeOfKind STRING) s)
    as (s1 & E1 & X1 & N1 & R1).
  rewrite (bind_Ok E1). exists (next s), s1. split; [reflexivity|].
  split; [exact X1|]. split; [lia|exact R1].
Qed.

Lemma push_global_events_detail (l : list AttributeData)
    (r : HtmlDataCollection) (s : State) :
  exists evs s',
    push_global_events l r s
    = (Ok (mkCollection (tags r) (attrs r) (globalEvents r ++ evs)), s') /\
    extends s s' /\ Forall2 (bare_event s') l evs.
Proof.
  revert r s. induction l as [|e l IH]; intros r s; simpl.
  - exists [], s. rewrite app_nil_r. destruct r.
    auto using extends_refl.
  - destruct (lazy_spec (fun _ => TypeOfKind ANY) s)
      as (s1 & E1 & X1 & N1 & R1).
    rewrite (bind_Ok E1).
    destruct (IH (push_event
                    (mkMember None (strip_on (attrDataName e))
                              (attrDataDescription e) (next s) None
                              (Some true)) r) s1)
      as (evs & s2 & E2 & X2 & F2).
    rewrite E2. simpl. rewrite <- app_assoc. eexists. exists s2.
    split; [reflexivity|]. split; [eauto using extends_trans|].
    constructor; [|assumption].
    split; [reflexivity|]. simpl.
    apply (typed_extends X2). split; [lia|exact R1].
Qed.

Lemma appended_nil_eq (t t' : HtmlTag) : appended [] [] t t' -> t' = t.
Proof.
  unfold appended. rewrite !app_nil_r.
  destruct t, t'; simpl. intros (-> & -> & -> & -> & -> & -> & ->).
  reflexivity.
Qed.

Lemma grown_names (l l' : list HtmlTag) :
  Forall2 grown l l' -> map tagName l' = map tagName l.
Proof.
  intro F. apply Forall2_map_eq. eapply Forall2_impl; [|exact F].
  intros t t' (ps & xs & (N & _) & _). exact N.
Qed.

(** A tag that is none of the four patched ones is not changed. *)
Lemma grown_other (t t' : HtmlTag) :
  grown t t' ->
  ~ In (tagName t) ["textarea"; "input"; "audio"; "video"] -> t' = t.
Proof.
  intros (ps & xs & Ha & Pp & Pa) Hn. apply appended_nil_eq.
  destruct Pp as [->|Pp]; [|exfalso; apply Hn; simpl in *; tauto].
  destruct Pa as [->|Pa]; [exact Ha|exfalso; apply Hn; simpl in *; tauto].
Qed.

(** The manual patches as a whole: the normalizer's tags grow in place
    and are followed by [svg] and [slot]; one global attribute and the
    bare events are appended. *)
Lemma patch_detail (r : HtmlDataCollection) (s : State) :
  exists r' s' l' g_event g_name g_on g_slot evs,
    patch r s = (Ok r', s') /\ extends s s' /\
    (tags r' = l' ++ [svg_tag; slot_tag g_event g_name g_on] /\
     Forall2 grown (tags r) l') /\
    attrs r' = attrs r ++ [slot_attr g_slot] /\
    (globalEvents r' = globalEvents r ++ evs /\
     Forall2 (bare_event s') HTML5_EVENTS evs) /\
    (typed s' g_event (TypeOfKind ANY) /\
     typed s' g_name (TypeOfKind STRING) /\
     typed s' g_on (TypeOfKind STRING) /\
     typed s' g_slot (TypeOfKind STRING)) /\
    (forall n, In n ["textarea"; "input"] ->
       In n (map tagName (tags r)) ->
       exists t' ps0 g,
         In t' l' /\ tagName t' = n /\
         properties t' = ps0 ++ [value_property n g] /\
         typed s' g nullable_string) /\
    (In "audio" (map tagName (tags r)) ->
     exists t' as0 g,
       In t' l' /\ tagName t' = "audio" /\
       attributes t' = as0 ++ [audio_controlslist g] /\
       typed s' g (TypeOfKind STRING)).
Proof.
  unfold patch.
  destruct (push_slot_tag_detail (push_tag svg_tag r) s)
    as (ge & gn & go & s1 & E1 & X1 & Te & Tn & To).
  set (r1 := push_tag (slot_tag ge gn go) (push_tag svg_tag r)) in *.
  destruct (push_slot_attr_detail r1 s1) as (ga & s2 & E2 & X2 & Ta).
  set (r2 := push_attr (slot_attr ga) r1) in *.
  destruct (push_value_property_detail "textarea" r2 s2)
    as (r3 & s3 & g3 & E3 & X3 & P3 & T3).
  destruct (push_value_property_detail "input" r3 s3)
    as (r4 & s4 & g4 & E4 & X4 & P4 & T4).
  destruct (patch_audio_detail r4 s4) as (r5 & s5 & g5 & E5 & X5 & P5 & T5).
  destruct (patch_video_detail r5 s5) as (r6 & s6 & g6 & g7 & E6 & X6 & P6).
  destruct (push_global_events_detail HTML5_EVENTS r6 s6)
    as (evs & s7 & E7 & X7 & F7).
  rewrite (bind_Ok E1), (bind_Ok E2), (bind_Ok E3), (bind_Ok E4),
    (bind_Ok E5), (bind_Ok E6), E7.
  assert (G3 : Forall2 grown (tags r2) (tags r3)).
  { eapply patched_at_grown; [| |exact P3]; simpl; auto. }
  assert (G4 : Forall2 grown (tags r3) (tags r4)).
  { eapply patched_at_grown; [| |exact P4]; simpl; auto. }
  assert (G5 : Forall2 grown (tags r4) (tags r5)).
  { eapply patched_at_grown; [| |exact P5]; simpl; auto. }
  assert (G6 : Forall2 grown (tags r5) (tags r6)).
  { eapply patched_at_grown; [| |exact P6]; simpl; auto. }
  pose proof (Forall2_trans grown_trans G3
                (Forall2_trans grown_trans G4
                   (Forall2_trans grown_trans G5 G6))) as G.
  assert (Etags : tags r2 = tags r ++ [svg_tag; slot_tag ge gn go]).
  { unfold r2, r1. simpl. now rewrite <- app_assoc. }
  rewrite Etags in G. apply Forall2_app_inv_l in G.
  destruct G as (l' & tail & Gl & Gt & E6').
  inversion Gt as [|x svg' y tl Hsvg Gt']; subst x y tail.
  inversion Gt' as [|x slot' y tl' Hslot Gt'']; subst x y tl.
  inversion Gt''; subst tl'.
  apply grown_other in Hsvg; [|simpl; intuition discriminate].
  apply grown_other in Hslot; [|simpl; intuition discriminate].
  subst svg' slot'.
  assert (X27 : extends s2 s7) by eauto 10 using extends_trans.
  assert (In_l' : forall t' n, In n ["textarea"; "input"; "audio"] ->
                    In t' (tags r6) -> tagName t' = n -> In t' l').
  { intros t' n Hn Hin Ht. rewrite E6' in Hin. apply in_app_or in Hin.
    destruct Hin as [Hin|Hin]; [exact Hin|]. exfalso.
    simpl in Hin, Hn.
    destruct Hin as [<-|[<-|[]]]; simpl in Ht; subst n;
      intuition discriminate. }
  destruct P3 as (A3 & V3 & P3'). pose proof P4 as (A4 & V4 & _).
  pose proof P5 as (A5 & V5 & _). pose proof P6 as (A6 & V6 & _).
  exists (mkCollection (tags r6) (attrs r6) (globalEvents r6 ++ evs)),
    s7, l', ge, gn, go, ga, evs.
  split; [reflexivity|]. split; [eauto 10 using extends_trans|]. simpl.
  split; [split; [exact E6'|exact Gl]|].
  split; [rewrite A6, A5, A4, A3; reflexivity|].
  split; [split; [rewrite V6, V5, V4, V3; reflexivity|exact F7]|].
  split.
  { assert (X17 : extends s1 s7) by eauto using extends_trans.
    split; [|split; [|split]].
    - exact (typed_extends X17 Te).
    - exact (typed_extends X17 Tn).
    - exact (typed_extends X17 To).
    - exact (typed_extends X27 Ta). }
  assert (N2 : forall n, In n (map tagName (tags r)) ->
                 In n (map tagName (tags r2))).
  { intros n Hn. rewrite Etags, map_app. apply in_or_app. now left. }
  split.
  - intros n Hn Hin. simpl in Hn. destruct Hn as [<-|[<-|[]]].
    + destruct (patched_at_here (conj A3 (conj V3 P3')) (N2 _ Hin))
        as (t & t' & I3 & Ht & Ha).
      exists t', (properties t), g3.
      assert (I6 : In t' (tags r6)).
      { eapply patched_at_other; [exact P6|rewrite Ht; discriminate|].
        eapply patched_at_other; [exact P5|rewrite Ht; discriminate|].
        eapply patched_at_other; [exact P4|rewrite Ht; discriminate|].
        exact I3. }
      split; [eapply In_l'; [|exact I6|exact Ht]; simpl; auto|].
      split; [exact Ht|]. split; [apply Ha|].
      eapply typed_extends; [|exact (T3 (N2 _ Hin))].
      eauto 10 using extends_trans.
    + assert (Hin3 : In "input" (map tagName (tags r3))).
      { rewrite (grown_names G3). now apply N2. }
      destruct (patched_at_here P4 Hin3) as (t & t' & I4 & Ht & Ha).
      exists t', (properties t), g4.
      assert (I6 : In t' (tags r6)).
      { eapply patched_at_other; [exact P6|rewrite Ht; discriminate|].
        eapply patched_at_other; [exact P5|rewrite Ht; discriminate|].
        exact I4. }
      split; [eapply In_l'; [|exact I6|exact Ht]; simpl; auto|].
      split; [exact Ht|]. split; [apply Ha|].
      eapply typed_extends; [|exact (T4 Hin3)].
      eauto 10 using extends_trans.
  - intro Hin.
    assert (Hin4 : In "audio" (map tagName (tags r4))).
    { rewrite (grown_names G4), (grown_names G3). now apply N2. }
    destruct (patched_at_here P5 Hin4) as (t & t' & I5 & Ht & Ha).
    exists t', (attributes t), g5.
    assert (I6 : In t' (tags r6)).
    { eapply patched_at_other; [exact P6|rewrite Ht; discriminate|].
      exact I5. }
    split; [eapply In_l'; [|exact I6|exact Ht]; simpl; auto|].
    split; [exact Ht|]. split; [apply Ha|].
    eapply typed_extends; [|exact (T5 Hin4)].
    eauto 10 using extends_trans.
Qed.

(** ** The built-in collection in detail *)

Lemma Forall2_compose {A B C : Type} (R : A -> B -> Prop)
    (S : B -> C -> Prop) (l1 : list A) (l2 : list B) (l3 : list C) :
  Forall2 R l1 l2 -> Forall2 S l2 l3 ->
  Forall2 (fun x z => exists y, R x y /\ S y z) l1 l3.
Proof.
  intro H12. revert l3.
  induction H12; intros l3 H23; inversion H23; subst; constructor; eauto.
Qed.

Lemma Forall2_nil_inv {A B : Type} (R : A -> B -> Prop) (l : list B) :
  Forall2 R [] l -> l = [].
Proof. intro H. now inversion H. Qed.

Lemma Forall2_one_inv {A B : Type} (R : A -> B -> Prop) (x : A)
    (l : list B) :
  Forall2 R [x] l -> exists y, l = [y] /\ R x y.
Proof.
  intro H. inversion H as [|a y l1 l2 Hxy Hrest]; subst.
  apply Forall2_nil_inv in Hrest. subst. eauto.
Qed.

Lemma Forall2_two_inv {A B : Type} (R : A -> B -> Prop) (x1 x2 : A)
    (l : list B) :
  Forall2 R [x1; x2] l -> exists y1 y2, l = [y1; y2] /\ R x1 y1 /\ R x2 y2.
Proof.
  intro H. inversion H as [|a y l1 l2 Hxy Hrest]; subst.
  apply Forall2_one_inv in Hrest. destruct Hrest as (y2 & -> & H2). eauto.
Qed.

(** A patched or pushed attribute whose type is not of the [ANY] kind
    keeps that type through the final maps unless the resolver
    special-cases its name. *)
Lemma finished_attr_typed (s s' : State) (a a' : HtmlAttr)
    (T : SimpleType) :
  extends s s' -> finished_attr s s' a a' -> typed s (getType a) T ->
  SimpleTypeKind_eqb (kind T) ANY = false ->
  finished_copy a a' /\
  fst (call (getType a') s')
  = Ok (if hasTypeForAttrName (name a) then html5TagAttrType (name a)
        else T).
Proof.
  intros Hx (Hc & Hb) (Hl & Hr) K. split; [exact Hc|].
  rewrite call_returns_resolved.
  assert (Hl' : live s (with_builtIn true a)) by exact Hl.
  rewrite (backfilled_type Hx Hl' (Hb Hl)).
  unfold backfill_condition. simpl. rewrite Hr, K, orb_false_r.
  reflexivity.
Qed.

Lemma finished_tag_grown (s s' : State) (t t' tc : HtmlTag) :
  grown t t' -> finished_tag s s' t' tc -> grown_and_finished t tc.
Proof.
  intros (ps & xs & (N & D & E & S & B & Hp & Ha) & Pp & Pa) (Hc & Fa).
  rewrite Hc. unfold grown_and_finished. simpl.
  repeat (split; [congruence|]).
  split.
  - exists ps. auto.
  - exists xs. split; [|exact Pa]. rewrite <- Ha.
    eapply Forall2_impl; [|exact Fa]. now intros a a' (H & _).
Qed.

(** The builder as a whole, when the normalizer accepts the baseline. *)
Lemma getBuiltInHtmlCollection_detail (s s1 : State)
    (r : HtmlDataCollection) :
  parseHtmlData baseline s = (Ok r, s1) ->
  exists r' s2 c s' l' g_event g_name g_on g_slot evs,
    getBuiltInHtmlCollection s = (Ok c, s') /\
    extends s1 s2 /\ extends s2 s' /\
    (tags r' = l' ++ [svg_tag; slot_tag g_event g_name g_on] /\
     Forall2 grown (tags r) l' /\
     Forall2 (finished_tag s2 s') (tags r') (tags c)) /\
    (attrs r' = attrs r ++ [slot_attr g_slot] /\
     Forall2 (finished_attr s2 s') (attrs r') (attrs c)) /\
    (globalEvents c = map (with_builtIn true) (globalEvents r ++ evs) /\
     Forall2 (bare_event s2) HTML5_EVENTS evs) /\
    (typed s2 g_event (TypeOfKind ANY) /\
     typed s2 g_name (TypeOfKind STRING) /\
     typed s2 g_on (TypeOfKind STRING) /\
     typed s2 g_slot (TypeOfKind STRING)) /\
    (forall n, In n ["textarea"; "input"] ->
       In n (map tagName (tags r)) ->
       exists t' ps0 g,
         In t' l' /\ tagName t' = n /\
         properties t' = ps0 ++ [value_property n g] /\
         typed s2 g nullable_string) /\
    (In "audio" (map tagName (tags r)) ->
     exists t' as0 g,
       In t' l' /\ tagName t' = "audio" /\
       attributes t' = as0 ++ [audio_controlslist g] /\
       typed s2 g (TypeOfKind STRING)).
Proof.
  intro E.
  destruct (getBuiltInHtmlCollection_spec _ E)
    as (r' & s2 & c & s' & Ec & Ep & Xf & Ft & Fa & Fe).
  destruct (patch_detail r s1)
    as (r'' & s2' & l' & ge & gn & go & ga & evs & Ep' & Xp & (Et & Gl) & Ea
        & (Ee & Fb) & Ty & Hv & Hau).
  rewrite Ep in Ep'. injection Ep' as <- <-.
  exists r', s2, c, s', l', ge, gn, go, ga, evs.
  split; [exact Ec|]. split; [exact Xp|]. split; [exact Xf|].
  split; [auto|]. split; [auto|].
  split; [split; [now rewrite Fe, Ee|exact Fb]|]. auto.
Qed.

(** X5: the normalizer failing on the baseline is not caught: the builder
    throws the same exception. *)
Theorem builtin_throws_with_normalizer (s s1 : State) (e : Err) :
  parseHtmlData baseline s = (Throw e, s1) ->
  getBuiltInHtmlCollection s = (Throw e, s1).
Proof.
  intro E. unfold getBuiltInHtmlCollection, bind. now rewrite E.
Qed.

(** X8: the tags of the returned collection are the normalizer's tags, in
    their order, followed by [svg] and [slot].  Each normalizer tag keeps
    its name, description, events and slots and is marked built-in; its
    properties are kept as they were, with something appended only for
    [textarea] and [input]; its attributes are kept in order, marked
    built-in and possibly re-typed, with something appended only for
    [audio] and [video]. *)
Theorem builtin_tags_only_grow (s s1 : State) (r : HtmlDataCollection) :
  parseHtmlData baseline s = (Ok r, s1) ->
  exists c s' l svg slot,
    getBuiltInHtmlCollection s = (Ok c, s') /\
    tags c = l ++ [svg; slot] /\
    tagName svg = "svg" /\ tagName slot = "slot" /\
    Forall2 grown_and_finished (tags r) l.
Proof.
  intro E.
  destruct (getBuiltInHtmlCollection_detail _ E)
    as (r' & s2 & c & s' & l' & ge & gn & go & ga & evs & Ec & _ & Xf
        & (Et & Gl & Ft) & _).
  rewrite Et in Ft. apply Forall2_app_inv_l in Ft.
  destruct Ft as (l & tail & Fl & Ftail & Etc).
  apply Forall2_two_inv in Ftail.
  destruct Ftail as (svg & slot & -> & Hsvg & Hslot).
  exists c, s', l, svg, slot. split; [exact Ec|]. split; [exact Etc|].
  apply finished_tag_fields in Hsvg. apply finished_tag_fields in Hslot.
  split; [apply Hsvg|]. split; [apply Hslot|].
  eapply Forall2_impl; [|exact (Forall2_compose Gl Fl)].
  intros t tc (t' & Hg & Hf). eapply finished_tag_grown; eassumption.
Qed.

(** X9: the last two tags of the returned collection are the pushed ones:
    [svg], built-in and without members, and [slot], built-in, with the
    event [slotchange] of the wildcard type and the attributes [name] and
    [onslotchange], which have the string type unless the resolver
    special-cases their names. *)
Theorem pushed_svg_and_slot_tags (s s1 : State) (r : HtmlDataCollection) :
  parseHtmlData baseline s = (Ok r, s1) ->
  exists c s' l a1 a2 ev,
    getBuiltInHtmlCollection s = (Ok c, s') /\
    tags c
    = l ++ [ mkTag "svg" (Some EmptyString) [] [] [] [] (Some true);
             mkTag "slot" (Some EmptyString) [a1; a2] [] [ev] []
                   (Some true) ] /\
    length l = length (tags r) /\
    (ev = mkMember None "slotchange" (Some slotchange_description)
                   (getType ev) (Some "slot") (Some true) /\
     fst (call (getType ev) s') = Ok (TypeOfKind ANY)) /\
    (a1 = mkMember (Some KAttribute) "name" None (getType a1)
                   (Some "slot") (Some true) /\
     fst (call (getType a1) s')
     = Ok (if hasTypeForAttrName "name" then html5TagAttrType "name"
           else TypeOfKind STRING)) /\
    (a2 = mkMember (Some KAttribute) "onslotchange" None (getType a2)
                   (Some "slot") (Some true) /\
     fst (call (getType a2) s')
     = Ok (if hasTypeForAttrName "onslotchange"
           then html5TagAttrType "onslotchange"
           else TypeOfKind STRING)).
Proof.
  intro E.
  destruct (getBuiltInHtmlCollection_detail _ E)
    as (r' & s2 & c & s' & l' & ge & gn & go & ga & evs & Ec & _ & Xf
        & (Et & Gl & Ft) & _ & _ & (Te & Tn & To & _) & _).
  rewrite Et in Ft. apply Forall2_app_inv_l in Ft.
  destruct Ft as (l & tail & Fl & Ftail & Etc).
  apply Forall2_two_inv in Ftail.
  destruct Ftail as (svg & slot & -> & (Hsvg & Fsvg) & (Hslot & Fslot)).
  simpl in Fsvg, Fslot. apply Forall2_nil_inv in Fsvg.
  apply Forall2_two_inv in Fslot.
  destruct Fslot as (a1 & a2 & Ea & H1 & H2).
  rewrite Fsvg in Hsvg. rewrite Ea in Hslot.
  exists c, s', l, a1, a2,
    (mkMember None "slotchange" (Some slotchange_description) ge
              (Some "slot") (Some true)).
  split; [exact Ec|]. split; [rewrite Etc, Hsvg, Hslot; reflexivity|].
  split.
  { apply Forall2_length in Gl. apply Forall2_length in Fl. congruence. }
  split.
  { split; [reflexivity|]. simpl. rewrite call_returns_resolved.
    destruct (typed_extends Xf Te) as (_ & ->). reflexivity. }
  split.
  - destruct (finished_attr_typed Xf H1 Tn eq_refl) as (Hc & Ht).
    split; [exact Hc|exact Ht].
  - destruct (finished_attr_typed Xf H2 To eq_refl) as (Hc & Ht).
    split; [exact Hc|exact Ht].
Qed.

(** X10: if the normalized baseline has a tag named [textarea] (or [input]),
    the returned collection has such a tag whose properties end with the
    property [value], built-in, owned by that tag, and of type string or
    null whatever the resolver says. *)
Theorem value_property_added (n : string) (s s1 : State)
    (r : HtmlDataCollection) :
  In n ["textarea"; "input"] ->
  parseHtmlData baseline s = (Ok r, s1) ->
  (exists t, In t (tags r) /\ tagName t = n) ->
  exists c s' t ps0 p,
    getBuiltInHtmlCollection s = (Ok c, s') /\
    In t (tags c) /\ tagName t = n /\
    properties t = ps0 ++ [p] /\
    p = mkMember (Some KProperty) "value" None (getType p) (Some n)
                 (Some true) /\
    fst (call (getType p) s') = Ok nullable_string.
Proof.
  intros Hn E (t0 & Hin & Hname).
  destruct (getBuiltInHtmlCollection_detail _ E)
    as (r' & s2 & c & s' & l' & ge & gn & go & ga & evs & Ec & _ & Xf
        & (Et & Gl & Ft) & _ & _ & _ & Hv & _).
  destruct (Hv n Hn) as (t' & ps0 & g & I' & N' & Hp & Tg).
  { rewrite <- Hname. now apply in_map. }
  assert (I2 : In t' (tags r')).
  { rewrite Et. apply in_or_app. now left. }
  destruct (Forall2_In_left _ Ft I2) as (tc & Ic & Hf).
  apply finished_tag_fields in Hf. destruct Hf as (Nc & _ & Pc & _).
  exists c, s', tc, ps0, (value_property n g).
  split; [exact Ec|]. split; [exact Ic|]. split; [congruence|].
  split; [congruence|]. split; [reflexivity|].
  simpl. rewrite call_returns_resolved.
  destruct (typed_extends Xf Tg) as (_ & ->). reflexivity.
Qed.

(** X11: if the normalized baseline has a tag named [audio], the returned
    collection has such a tag whose attributes end with [controlslist],
    built-in, owned by [audio], and of the string type unless the
    resolver special-cases that name. *)
Theorem audio_controlslist_added (s s1 : State) (r : HtmlDataCollection) :
  parseHtmlData baseline s = (Ok r, s1) ->
  (exists t, In t (tags r) /\ tagName t = "audio") ->
  exists c s' t as0 a,
    getBuiltInHtmlCollection s = (Ok c, s') /\
    In t (tags c) /\ tagName t = "audio" /\
    attributes t = as0 ++ [a] /\
    a = mkMember (Some KAttribute) "controlslist" None (getType a)
                 (Some "audio") (Some true) /\
    fst (call (getType a) s')
    = Ok (if hasTypeForAttrName "controlslist"
          then html5TagAttrType "controlslist"
          else TypeOfKind STRING).
Proof.
  intros E (t0 & Hin & Hname).
  destruct (getBuiltInHtmlCollection_detail _ E)
    as (r' & s2 & c & s' & l' & ge & gn & go & ga & evs & Ec & _ & Xf
        & (Et & Gl & Ft) & _ & _ & _ & _ & Hau).
  destruct Hau as (t' & as0 & g & I' & N' & Ha & Tg).
  { rewrite <- Hname. now apply in_map. }
  assert (I2 : In t' (tags r')).
  { rewrite Et. apply in_or_app. now left. }
  destruct (Forall2_In_left _ Ft I2) as (tc & Ic & (Hc & Fa)).
  rewrite Ha in Fa. apply Forall2_app_inv_l in Fa.
  destruct Fa as (out0 & out1 & _ & F1 & Eout).
  apply Forall2_one_inv in F1. destruct F1 as (a & -> & H1).
  destruct (finished_attr_typed Xf H1 Tg eq_refl) as (Hca & Ht).
  exists c, s', tc, out0, a.
  split; [exact Ec|]. split; [exact Ic|].
  split; [rewrite Hc; exact N'|]. split; [exact Eout|].
  split; [exact Hca|exact Ht].
Qed.

(** X12: the global attributes of the returned collection are the
    normalizer's, in their order, marked built-in and possibly re-typed,
    followed by the attribute [slot], which has the string type unless the
    resolver special-cases that name. *)
Theorem builtin_global_attributes (s s1 : State) (r : HtmlDataCollection) :
  parseHtmlData baseline s = (Ok r, s1) ->
  exists c s' l a,
    getBuiltInHtmlCollection s = (Ok c, s') /\
    attrs c = l ++ [a] /\
    Forall2 finished_copy (attrs r) l /\
    a = mkMember (Some KAttribute) "slot" None (getType a) None
                 (Some true) /\
    fst (call (getType a) s')
    = Ok (if hasTypeForAttrName "slot" then html5TagAttrType "slot"
          else TypeOfKind STRING).
Proof.
  intro E.
  destruct (getBuiltInHtmlCollection_detail _ E)
    as (r' & s2 & c & s' & l' & ge & gn & go & ga & evs & Ec & _ & Xf
        & _ & (Ea & Fa) & _ & (_ & _ & _ & Ta) & _).
  rewrite Ea in Fa. apply Forall2_app_inv_l in Fa.
  destruct Fa as (l & tail & Fl & Ft & Eout).
  apply Forall2_one_inv in Ft. destruct Ft as (a & -> & H1).
  destruct (finished_attr_typed Xf H1 Ta eq_refl) as (Hca & Ht).
  exists c, s', l, a. split; [exact Ec|]. split; [exact Eout|].
  split; [eapply Forall2_impl; [|exact Fl]; now intros x y (H & _)|].
  split; [exact Hca|exact Ht].
Qed.

(** X13: the global events of the returned collection are the normalizer's, in
    their order and marked built-in, followed by one event per entry of
    [HTML5_EVENTS], in the order of the list: named like the entry with
    one leading [on] removed ([rest] for [on] followed by [rest], the
    entry's own name if it does not start with [on]), with the entry's
    description, built-in, and of the wildcard type. *)
Theorem builtin_global_events (s s1 : State) (r : HtmlDataCollection) :
  parseHtmlData baseline s = (Ok r, s1) ->
  exists c s' evs,
    getBuiltInHtmlCollection s = (Ok c, s') /\
    globalEvents c = map (with_builtIn true) (globalEvents r) ++ evs /\
    Forall2 (fun e ev =>
               ev = mkMember None (name ev) (attrDataDescription e)
                             (getType ev) None (Some true) /\
               bare_name (attrDataName e) (name ev) /\
               fst (call (getType ev) s') = Ok (TypeOfKind ANY))
            HTML5_EVENTS evs.
Proof.
  intro E.
  destruct (getBuiltInHtmlCollection_detail _ E)
    as (r' & s2 & c & s' & l' & ge & gn & go & ga & evs & Ec & _ & Xf
        & _ & _ & (Ee & Fb) & _).
  exists c, s', evs. split; [exact Ec|]. split.
  - rewrite Ee, map_app. f_equal.
    clear Ee. induction Fb as [|e ev l0 l1 (Hev & _) _ IH]; simpl;
      [reflexivity|].
    rewrite IH. f_equal. rewrite Hev. reflexivity.
  - eapply Forall2_impl; [|exact Fb].
    intros e ev (Hev & Tev).
    assert (Hn : name ev = strip_on (attrDataName e))
      by (rewrite Hev; reflexivity).
    rewrite Hn. split; [exact Hev|].
    split; [apply strip_on_bare_name|].
    rewrite call_returns_resolved.
    destruct (typed_extends Xf Tev) as (_ & ->). reflexivity.
Qed.

(** ** More on [getUserConfigHtmlCollection] *)

Lemma for_each_source_all_fail (l : list DataSource) (s : State) :
  all_fail l s ->
  exists s', for_each_source l empty_collection s = (Ok empty_collection, s').
Proof.
  revert s. induction l as [|src l IH]; intros s H; simpl.
  - exists s. reflexivity.
  - destruct H as (e & s2 & E & H).
    rewrite (bind_Ok (try_source_caught _ _ _ E)). now apply IH.
Qed.

(** X14: when every custom data source fails, the builder still returns, and
    the collection is exactly the entities made from the three name
    lists. *)
Theorem all_sources_failing (config : Config) (s : State) :
  all_fail (sources_of (customHtmlData config)) s ->
  exists c s',
    getUserConfigHtmlCollection config s = (Ok c, s') /\
    tags c = map global_tag (globalHtmlTags config) /\
    map name (attrs c) = globalHtmlAttributes config /\
    map name (globalEvents c) = globalHtmlEvents config.
Proof.
  intro H. destruct (for_each_source_all_fail _ _ H) as (s1 & E1).
  destruct (getUserConfigHtmlCollection_spec config s)
    as (cl & sl & a0 & e0 & s' & El & Ec & _ & Fa & Fe).
  rewrite E1 in El. injection El as <- <-.
  simpl in Ec. rewrite !app_nil_r in Ec.
  eexists. exists s'. split; [exact Ec|]. simpl.
  split; [reflexivity|].
  split; eapply synthesized_names; eassumption.
Qed.

(** X15: for every configuration the builder returns without throwing.  The
    collection starts with one entity per name of the three lists, in the
    order of the lists, followed by what the loop over the sources left:
    a tag with that name and nothing else; an attribute or event with
    that name, its kind, no description, no owner, no [builtIn] flag, and
    an accessor that returns the wildcard type. *)
Theorem user_synthesized_entities (config : Config) (s : State) :
  exists c s' attrs0 events0 cl sl,
    for_each_source (sources_of (customHtmlData config)) empty_collection s
    = (Ok cl, sl) /\
    getUserConfigHtmlCollection config s = (Ok c, s') /\
    tags c
    = map (fun n => mkTag n None [] [] [] [] None) (globalHtmlTags config)
      ++ tags cl /\
    attrs c = attrs0 ++ attrs cl /\
    globalEvents c = events0 ++ globalEvents cl /\
    Forall2 (fun n a =>
               a = mkMember (Some KAttribute) n None (getType a) None None /\
               fst (call (getType a) s') = Ok (TypeOfKind ANY))
            (globalHtmlAttributes config) attrs0 /\
    Forall2 (fun n e =>
               e = mkMember (Some KEvent) n None (getType e) None None /\
               fst (call (getType e) s') = Ok (TypeOfKind ANY))
            (globalHtmlEvents config) events0.
Proof.
  destruct (getUserConfigHtmlCollection_spec config s)
    as (cl & sl & a0 & e0 & s' & El & Ec & _ & Fa & Fe).
  eexists. exists s', a0, e0, cl, sl. split; [exact El|].
  split; [exact Ec|]. simpl. do 3 (split; [reflexivity|]). split.
  - eapply Forall2_impl; [|exact Fa]. intros n a (Ha & _ & Hr).
    split; [exact Ha|]. rewrite call_returns_resolved. now rewrite Hr.
  - eapply Forall2_impl; [|exact Fe]. intros n a (Ha & _ & Hr).
    split; [exact Ha|]. rewrite call_returns_resolved. now rewrite Hr.
Qed.

(** X16: after the normalizer has run, the builder neither touches the world
    nor disturbs an accessor: every accessor the normalizer made still
    returns in the end what it returned when the normalizer finished. *)
Theorem builtin_keeps_normalizer_accessors (s s1 : State)
    (r : HtmlDataCollection) :
  parseHtmlData baseline s = (Ok r, s1) ->
  exists c s',
    getBuiltInHtmlCollection s = (Ok c, s') /\
    world s' = world s1 /\
    forall g, g < next s1 ->
      fst (call g s') = fst (call g s1).
Proof.
  intro E.
  destruct (getBuiltInHtmlCollection_spec _ E)
    as (r' & s2 & c & s' & Ec & Ep & Xf & _).
  destruct (patch_spec r s1) as (r'' & s2' & a0 & evs & Ep' & Xp & _).
  rewrite Ep in Ep'. injection Ep' as <- <-.
  destruct (extends_trans Xp Xf) as (W & _ & R).
  exists c, s'. split; [exact Ec|]. split; [exact W|].
  intros g Hg. rewrite !call_returns_resolved. now rewrite R.
Qed.

(** X17: the types of the global attributes the normalizer returned, in the
    built-in collection: the Type Resolver's type for the name if the
    resolver special-cases the name or the normalizer's type was of the
    [ANY] kind, and the normalizer's type otherwise. *)
Theorem builtin_global_attribute_types (s s1 : State)
    (r : HtmlDataCollection) :
  parseHtmlData baseline s = (Ok r, s1) ->
  Forall (live s1) (attrs r) ->
  exists c s' l a,
    getBuiltInHtmlCollection s = (Ok c, s') /\
    attrs c = l ++ [a] /\
    Forall2 (fun a0 a' =>
               name a' = name a0 /\
               fst (call (getType a') s')
               = Ok (if hasTypeForAttrName (name a0)
                        || SimpleTypeKind_eqb
                             (kind (resolved s1 (getType a0))) ANY
                     then html5TagAttrType (name a0)
                     else resolved s1 (getType a0)))
            (attrs r) l.
Proof.
  intros E Hlive.
  destruct (getBuiltInHtmlCollection_detail _ E)
    as (r' & s2 & c & s' & l' & ge & gn & go & ga & evs & Ec & Xp & Xf
        & _ & (Ea & Fa) & _).
  rewrite Ea in Fa. apply Forall2_app_inv_l in Fa.
  destruct Fa as (l & tail & Fl & Ft & Eout).
  apply Forall2_one_inv in Ft. destruct Ft as (a & -> & _).
  exists c, s', l, a. split; [exact Ec|]. split; [exact Eout|].
  eapply Forall2_impl; [|exact (Forall_Forall2_left Hlive Fl)].
  intros x y (Hl & Hc & Hb).
  split; [rewrite Hc; reflexivity|].
  rewrite call_returns_resolved.
  destruct Xp as (_ & N12 & R12).
  assert (Hl2 : live s2 (with_builtIn true x)).
  { unfold live in *. simpl. lia. }
  rewrite (backfilled_type Xf Hl2 (Hb Hl2)).
  unfold backfill_condition. simpl. rewrite (R12 _ Hl). reflexivity.
Qed.

(** C1: every tag, every attribute (global or of a tag) and every event
    (global or of a tag) of the collection returned by
    [getBuiltInHtmlCollection] has [builtIn] true, whatever flags the
    normalizer set, for a normalizer whose tags carry no events of their
    own: the only event of a tag is then [slotchange], which the builder
    makes with [builtIn] true. *)
Theorem builtin_entities_marked_builtIn (s s1 : State)
    (r : HtmlDataCollection) :
  parseHtmlData baseline s = (Ok r, s1) ->
  (forall t, In t (tags r) -> events t = []) ->
  exists c s',
    getBuiltInHtmlCollection s = (Ok c, s') /\
    (forall t, In t (tags c) ->
       tagBuiltIn t = Some true /\
       (forall a, In a (attributes t) -> builtIn a = Some true) /\
       (forall e, In e (events t) -> builtIn e = Some true)) /\
    (forall a, In a (attrs c) -> builtIn a = Some true) /\
    (forall e, In e (globalEvents c) -> builtIn e = Some true).
Proof.
  intros E Hev.
  destruct (getBuiltInHtmlCollection_detail _ E)
    as (r' & s2 & c & s' & l' & ge & gn & go & ga & evs & Ec & _ & Xf
        & (Et & Gl & Ft) & (Ea & Fa) & (Ee & Fb) & _).
  exists c, s'. split; [exact Ec|]. split; [|split].
  - intros t Ht.
    destruct (Forall2_In_right _ Ft Ht) as (t0 & I0 & Hf).
    destruct (finished_tag_fields Hf) as (_ & Ee' & _ & Bt).
    split; [exact Bt|]. split.
    + intros a Ha. destruct Hf as (_ & Fa').
      destruct (Forall2_In_right _ Fa' Ha) as (a0 & _ & H1).
      now apply finished_attr_fields in H1.
    + rewrite Ee'. rewrite Et in I0. apply in_app_or in I0.
      destruct I0 as [I0|[<-|[<-|[]]]].
      * destruct (Forall2_In_right _ Gl I0)
          as (tr & Ir & ps & xs & (_ & _ & Eg & _) & _).
        rewrite Eg, (Hev tr Ir). intros e [].
      * intros e [].
      * intros e [<-|[]]. reflexivity.
  - intros a Ha. destruct (Forall2_In_right _ Fa Ha) as (a0 & _ & H1).
    now apply finished_attr_fields in H1.
  - intros e He. rewrite Ee in He. apply in_map_iff in He.
    destruct He as (e0 & <- & _). reflexivity.
Qed.

End Properties.


(** * The properties on the concrete platform *)

Example strip_on_onclick : strip_on "onclick" = "click".
Proof. reflexivity. Qed.

Example strip_on_once : strip_on "ononline" = "online".
Proof. reflexivity. Qed.

Example strip_on_no_prefix : strip_on "click" = "click".
Proof. reflexivity. Qed.

Example strip_on_only_leading : strip_on "icon" = "icon".
Proof. reflexivity. Qed.

(** Three sources, the second a file that is not JSON: the file
    [good.json] and the inline document are merged, the builder returns,
    and its tags are the synthesized one and those of the two valid
    sources. *)
Lemma user_source_failure_is_skipped_witness :
  exists cl sl attrs0 events0 s',
    loop_outcome (X := Demo.plain)
                 [Demo.good_file; Demo.bad_file; Demo.inline]
                 empty_collection Demo.start cl sl /\
    map tagName (tags cl) = ["my-tag"; "x-a"] /\
    getUserConfigHtmlCollection (X := Demo.plain) Demo.config Demo.start
    = (Ok (mkCollection
             (map global_tag ["my-widget"] ++ tags cl)
             (attrs0 ++ attrs cl)
             (events0 ++ globalEvents cl)), s') /\
    map name attrs0 = ["data-x"] /\
    map name events0 = ["my-event"].
Proof.
  destruct (@user_source_failure_is_skipped Demo.platform Demo.plain
              Demo.config Demo.start) as ((cl & sl & Hl) & Hall).
  destruct (Hall cl sl Hl) as (attrs0 & events0 & s' & Ec & Ha & He).
  exists cl, sl, attrs0, events0, s'.
  split; [exact Hl|]. split; [|split; [exact Ec|split; assumption]].
  pose proof (loop_outcome_for_each_source Hl) as E.
  vm_compute in E. injection E as <- _. reflexivity.
Defined.

(** Three attributes over a resolver that special-cases [controlslist]. *)
Lemma addMissingAttrTypes_replaces_iff_witness :
  exists out s',
    addMissingAttrTypes (X := Demo.special) Demo.three_attrs Demo.three_cells
    = (Ok out, s') /\
    Forall2
      (fun attr attr' =>
         (getType attr' <> getType attr <->
          hasTypeForAttrName (Externals := Demo.special) (name attr) = true \/
          kind (resolved Demo.three_cells (getType attr)) = ANY) /\
         (getType attr' <> getType attr ->
          attr' = with_getType (getType attr') attr /\
          fst (call (getType attr') s')
          = Ok (html5TagAttrType (Externals := Demo.special) (name attr))) /\
         (getType attr' = getType attr -> attr' = attr))
      Demo.three_attrs out.
Proof.
  apply (@addMissingAttrTypes_replaces_iff Demo.platform Demo.special
           Demo.three_attrs Demo.three_cells).
  repeat (apply Forall_cons; [unfold live; simpl; lia|]). apply Forall_nil.
Defined.

(** The baseline event [onclick] gives the global event [click]. *)
Lemma builtin_bare_event_names_witness :
  exists c s' ev,
    getBuiltInHtmlCollection (X := Demo.plain) Demo.start = (Ok c, s') /\
    In ev (globalEvents c) /\ name ev = "click" /\ builtIn ev = Some true.
Proof.
  edestruct (@builtin_bare_event_names Demo.platform Demo.plain Demo.start)
    as (c & s' & Ec & H); [vm_compute; reflexivity|].
  destruct (H (mkAttributeData "onclick" None) (or_introl eq_refl))
    as (ev & Hin & (Hname & _) & Hb).
  exists c, s', ev. split; [exact Ec|]. split; [exact Hin|].
  split; [exact (Hname "click" eq_refl)|exact Hb].
Defined.

(** The normalized baseline of the concrete platform is kept. *)
Lemma builtin_keeps_normalized_entities_witness :
  exists r s1,
    parseHtmlData (Externals := Demo.plain) (baseline (X := Demo.plain))
                  Demo.start = (Ok r, s1) /\
    exists c s',
      getBuiltInHtmlCollection (X := Demo.plain) Demo.start = (Ok c, s') /\
      (forall t, In t (tags r) ->
         exists t', In t' (tags c) /\ tagName t' = tagName t) /\
      (forall a, In a (attrs r) ->
         exists a', In a' (attrs c) /\ name a' = name a) /\
      (forall e, In e (globalEvents r) ->
         exists e', In e' (globalEvents c) /\ name e' = name e).
Proof.
  do 2 eexists. split; [vm_compute; reflexivity|].
  eapply (@builtin_keeps_normalized_entities Demo.platform Demo.plain
           Demo.start).
  vm_compute; reflexivity.
Defined.

(** A resolver without special cases, on the baseline with [video]. *)
Lemma video_attributes_string_and_boolean_witness :
  exists c s' t a1 a2,
    getBuiltInHtmlCollection (X := Demo.plain) Demo.start = (Ok c, s') /\
    In t (tags c) /\ tagName t = "video" /\
    In a1 (attributes t) /\ In a2 (attributes t) /\
    (name a1 = "controlslist" /\ fromTagName a1 = Some "video" /\
     builtIn a1 = Some true /\
     fst (call (getType a1) s') = Ok (TypeOfKind STRING)) /\
    (name a2 = "playsinline" /\ fromTagName a2 = Some "video" /\
     builtIn a2 = Some true /\
     fst (call (getType a2) s') = Ok (TypeOfKind BOOLEAN)).
Proof.
  eapply (@video_attributes_string_and_boolean Demo.platform Demo.plain
            Demo.start).
  - reflexivity.
  - reflexivity.
  - vm_compute; reflexivity.
  - eexists. split; [left; reflexivity|reflexivity].
Defined.

(** [globalHtmlTags: ["my-widget"]] and no custom data. *)
Lemma global_tag_only_collection_witness :
  exists c s',
    getUserConfigHtmlCollection (X := Demo.plain) Demo.widget_config
                                Demo.start = (Ok c, s') /\
    tags c = [mkTag "my-widget" None [] [] [] [] None] /\
    map name (attrs c) = ["data-x"] /\
    map name (globalEvents c) = ["my-event"] /\
    forall m, In m (attrs c) \/ In m (globalEvents c) ->
      fst (call (getType m) s') = Ok (TypeOfKind ANY).
Proof.
  eapply (@global_tag_only_collection Demo.platform Demo.plain
            Demo.widget_config Demo.start).
  - reflexivity.
  - vm_compute; reflexivity.
Defined.

(** The attribute [data-x] and the event [my-event] of the user
    collection, and the back-fill of three attributes. *)
Lemma getType_memoized_witness :
  (exists out s',
      addMissingAttrTypes (X := Demo.special) Demo.three_attrs
                          Demo.three_cells = (Ok out, s') /\
      Forall2 (fun a a' =>
                 (getType a' <> getType a ->
                  made_lazily Demo.three_cells s' (getType a')
                    (html5TagAttrType (Externals := Demo.special)
                                      (name a)) /\
                  memoizes s' (getType a')
                    (html5TagAttrType (Externals := Demo.special)
                                      (name a))) /\
                 (getType a' = getType a ->
                  memoizes s' (getType a')
                           (resolved Demo.three_cells (getType a))))
              Demo.three_attrs out) /\
  (exists c s m,
      getUserConfigHtmlCollection (X := Demo.special) Demo.config Demo.start
      = (Ok c, s) /\
      In m (members c) /\
      memoizes s (getType m) (TypeOfKind ANY)).
Proof.
  destruct (@getType_memoized Demo.platform Demo.special) as (_ & HB & HC).
  split.
  - apply HB.
    repeat (apply Forall_cons; [unfold live; simpl; lia|]). apply Forall_nil.
  - do 3 eexists. split; [vm_compute; reflexivity|].
    split; [left; reflexivity|].
    eapply (HC Demo.config Demo.start).
    + left. vm_compute; reflexivity.
    + left; reflexivity.
Defined.

(** * Further properties on the concrete platform *)

(** X4: [strip_on] is [replace(/^on/, "")]: a name that starts with [on]
    loses exactly that prefix, once; any other name is unchanged. *)
Theorem strip_on_spec (s : string) :
  if String.prefix "on" s
  then s = ("on" ++ strip_on s)%string
  else strip_on s = s.
Proof.
  destruct s as [|c1 s]; [reflexivity|]. simpl String.prefix.
  destruct (Ascii.ascii_dec "o" c1) as [<-|H1]; cbv iota.
  - destruct s as [|c2 s]; [reflexivity|]. simpl String.prefix.
    destruct (Ascii.ascii_dec "n" c2) as [<-|H2]; cbv iota.
    + destruct s; reflexivity.
    + destruct c2 as [[] [] [] [] [] [] [] []]; try reflexivity.
      now elim H2.
  - destruct c1 as [[] [] [] [] [] [] [] []]; try reflexivity.
    now elim H1.
Qed.

(** Three attributes over a resolver that special-cases [controlslist]:
    the untyped one and the special-cased one get the resolver's type. *)
Lemma addMissingAttrTypes_types_witness :
  exists out s',
    addMissingAttrTypes (X := Demo.special) Demo.three_attrs Demo.three_cells
    = (Ok out, s') /\
    (forall g, g < 3 -> resolved s' g = resolved Demo.three_cells g) /\
    Forall2 (fun attr attr' =>
               fst (call (getType attr') s')
               = Ok (if hasTypeForAttrName (Externals := Demo.special)
                          (name attr)
                        || SimpleTypeKind_eqb
                             (kind (resolved Demo.three_cells
                                             (getType attr))) ANY
                     then html5TagAttrType (Externals := Demo.special)
                            (name attr)
                     else resolved Demo.three_cells (getType attr)))
            Demo.three_attrs out.
Proof.
  apply (@addMissingAttrTypes_types Demo.platform Demo.special
           Demo.three_attrs Demo.three_cells).
  repeat (apply Forall_cons; [unfold live; simpl; lia|]). apply Forall_nil.
Defined.

(** The same three attributes, back-filled twice. *)
Lemma addMissingAttrTypes_twice_witness :
  exists out s1 out2 s2,
    addMissingAttrTypes (X := Demo.special) Demo.three_attrs Demo.three_cells
    = (Ok out, s1) /\
    addMissingAttrTypes (X := Demo.special) out s1 = (Ok out2, s2) /\
    Forall2 (fun a1 a2 =>
               a2 = with_getType (getType a2) a1 /\
               fst (call (getType a2) s2) = fst (call (getType a1) s1))
            out out2.
Proof.
  apply (@addMissingAttrTypes_twice Demo.platform Demo.special
           Demo.three_attrs Demo.three_cells).
  repeat (apply Forall_cons; [unfold live; simpl; lia|]). apply Forall_nil.
Defined.

(** A normalizer that rejects the baseline. *)
Lemma builtin_throws_with_normalizer_witness :
  getBuiltInHtmlCollection (X := Demo.rejecting) Demo.start
  = (Throw Demo.type_error, Demo.start).
Proof.
  apply (@builtin_throws_with_normalizer Demo.platform Demo.rejecting
           Demo.start Demo.start Demo.type_error).
  reflexivity.
Defined.

(** The flags of the collection built over the baseline with [video]. *)
Lemma builtIn_marked_witness :
  exists c s',
    getBuiltInHtmlCollection (X := Demo.plain) Demo.start = (Ok c, s') /\
    (forall t, In t (tags c) ->
       tagBuiltIn t = Some true /\
       forall a, In a (attributes t) -> builtIn a = Some true) /\
    (forall a, In a (attrs c) -> builtIn a = Some true) /\
    (forall e, In e (globalEvents c) -> builtIn e = Some true).
Proof.
  eapply (@builtIn_marked Demo.platform Demo.plain Demo.start).
  vm_compute; reflexivity.
Defined.

(** The event [play] of the normalized [video] tag. *)
Lemma tag_events_returned_as_normalized_witness :
  exists r s1 t,
    parseHtmlData (Externals := Demo.plain) (baseline (X := Demo.plain))
                  Demo.start = (Ok r, s1) /\
    In t (tags r) /\
    exists c s' t',
      getBuiltInHtmlCollection (X := Demo.plain) Demo.start = (Ok c, s') /\
      In t' (tags c) /\ tagName t' = tagName t /\ events t' = events t.
Proof.
  do 3 eexists. split; [vm_compute; reflexivity|].
  split; [left; reflexivity|].
  eapply (@tag_events_returned_as_normalized Demo.platform Demo.plain
            Demo.start).
  - vm_compute; reflexivity.
  - left; reflexivity.
Defined.

(** The baseline with [textarea], [input], [audio] and [video]. *)
Lemma builtin_tags_only_grow_witness :
  exists r s1,
    parseHtmlData (Externals := Demo.media) (baseline (X := Demo.media))
                  Demo.start = (Ok r, s1) /\
    exists c s' l svg slot,
      getBuiltInHtmlCollection (X := Demo.media) Demo.start = (Ok c, s') /\
      tags c = l ++ [svg; slot] /\
      tagName svg = "svg" /\ tagName slot = "slot" /\
      Forall2 grown_and_finished (tags r) l.
Proof.
  do 2 eexists. split; [vm_compute; reflexivity|].
  eapply (@builtin_tags_only_grow Demo.platform Demo.media Demo.start).
  vm_compute; reflexivity.
Defined.

(** The resolver of this platform special-cases [name]. *)
Lemma pushed_svg_and_slot_tags_witness :
  exists r s1,
    parseHtmlData (Externals := Demo.media) (baseline (X := Demo.media))
                  Demo.start = (Ok r, s1) /\
    exists c s' l a1 a2 ev,
      getBuiltInHtmlCollection (X := Demo.media) Demo.start = (Ok c, s') /\
      tags c
      = l ++ [ mkTag "svg" (Some EmptyString) [] [] [] [] (Some true);
               mkTag "slot" (Some EmptyString) [a1; a2] [] [ev] []
                     (Some true) ] /\
      length l = length (tags r) /\
      (ev = mkMember None "slotchange" (Some slotchange_description)
                     (getType ev) (Some "slot") (Some true) /\
       fst (call (getType ev) s') = Ok (TypeOfKind ANY)) /\
      (a1 = mkMember (Some KAttribute) "name" None (getType a1)
                     (Some "slot") (Some true) /\
       fst (call (getType a1) s') = Ok (TypeStringLiteral "id")) /\
      (a2 = mkMember (Some KAttribute) "onslotchange" None (getType a2)
                     (Some "slot") (Some true) /\
       fst (call (getType a2) s') = Ok (TypeOfKind STRING)).
Proof.
  do 2 eexists. split; [vm_compute; reflexivity|].
  eapply (@pushed_svg_and_slot_tags Demo.platform Demo.media Demo.start).
  vm_compute; reflexivity.
Defined.

(** The [input] tag of the baseline gets its [value] property. *)
Lemma value_property_added_witness :
  exists c s' t ps0 p,
    getBuiltInHtmlCollection (X := Demo.media) Demo.start = (Ok c, s') /\
    In t (tags c) /\ tagName t = "input" /\
    properties t = ps0 ++ [p] /\
    p = mkMember (Some KProperty) "value" None (getType p) (Some "input")
                 (Some true) /\
    fst (call (getType p) s') = Ok nullable_string.
Proof.
  eapply (@value_property_added Demo.platform Demo.media "input"
            Demo.start).
  - right; left; reflexivity.
  - vm_compute; reflexivity.
  - eexists. split; [right; left; reflexivity|reflexivity].
Defined.

(** The [audio] tag of the baseline gets [controlslist]. *)
Lemma audio_controlslist_added_witness :
  exists c s' t as0 a,
    getBuiltInHtmlCollection (X := Demo.media) Demo.start = (Ok c, s') /\
    In t (tags c) /\ tagName t = "audio" /\
    attributes t = as0 ++ [a] /\
    a = mkMember (Some KAttribute) "controlslist" None (getType a)
                 (Some "audio") (Some true) /\
    fst (call (getType a) s') = Ok (TypeOfKind STRING).
Proof.
  eapply (@audio_controlslist_added Demo.platform Demo.media Demo.start).
  - vm_compute; reflexivity.
  - eexists. split; [right; right; left; reflexivity|reflexivity].
Defined.

(** The global attributes [id] and [aria-label] and the event attribute
    [onclick] of the baseline, followed by [slot]. *)
Lemma builtin_global_attributes_witness :
  exists r s1,
    parseHtmlData (Externals := Demo.media) (baseline (X := Demo.media))
                  Demo.start = (Ok r, s1) /\
    exists c s' l a,
      getBuiltInHtmlCollection (X := Demo.media) Demo.start = (Ok c, s') /\
      attrs c = l ++ [a] /\
      Forall2 finished_copy (attrs r) l /\
      a = mkMember (Some KAttribute) "slot" None (getType a) None
                   (Some true) /\
      fst (call (getType a) s') = Ok (TypeOfKind STRING).
Proof.
  do 2 eexists. split; [vm_compute; reflexivity|].
  eapply (@builtin_global_attributes Demo.platform Demo.media Demo.start).
  vm_compute; reflexivity.
Defined.

(** The baseline event [onclick] gives the event [click]. *)
Lemma builtin_global_events_witness :
  exists r s1,
    parseHtmlData (Externals := Demo.media) (baseline (X := Demo.media))
                  Demo.start = (Ok r, s1) /\
    exists c s' ev,
      getBuiltInHtmlCollection (X := Demo.media) Demo.start = (Ok c, s') /\
      globalEvents c = map (with_builtIn true) (globalEvents r) ++ [ev] /\
      ev = mkMember None "click" None (getType ev) None (Some true) /\
      fst (call (getType ev) s') = Ok (TypeOfKind ANY).
Proof.
  do 2 eexists. split; [vm_compute; reflexivity|].
  edestruct (@builtin_global_events Demo.platform Demo.media Demo.start)
    as (c & s' & evs & Ec & Eg & F); [vm_compute; reflexivity|].
  apply Forall2_one_inv in F.
  destruct F as (ev & -> & Hev & (Hname & _) & Ht).
  exists c, s', ev. split; [exact Ec|]. split; [exact Eg|].
  split; [|exact Ht].
  rewrite <- (Hname "click" eq_refl). exact Hev.
Defined.

(** A file that is not JSON and a string that names no file. *)
Lemma all_sources_failing_witness :
  exists c s',
    getUserConfigHtmlCollection (X := Demo.plain) Demo.broken_config
                                Demo.start = (Ok c, s') /\
    tags c = map global_tag ["my-widget"] /\
    map name (attrs c) = ["data-x"] /\
    map name (globalEvents c) = ["my-event"].
Proof.
  apply (@all_sources_failing Demo.platform Demo.plain Demo.broken_config
           Demo.start).
  simpl. do 2 eexists. split; [vm_compute; reflexivity|].
  do 2 eexists. split; [vm_compute; reflexivity|]. exact I.
Defined.

(** The accessors made by the normalizer on the baseline with the four
    patched tags. *)
Lemma builtin_keeps_normalizer_accessors_witness :
  exists r s1,
    parseHtmlData (Externals := Demo.media) (baseline (X := Demo.media))
                  Demo.start = (Ok r, s1) /\
    exists c s',
      getBuiltInHtmlCollection (X := Demo.media) Demo.start = (Ok c, s') /\
      world s' = world s1 /\
      forall g, g < next s1 -> fst (call g s') = fst (call g s1).
Proof.
  do 2 eexists. split; [vm_compute; reflexivity|].
  eapply (@builtin_keeps_normalizer_accessors Demo.platform Demo.media
            Demo.start).
  vm_compute; reflexivity.
Defined.

(** The global attributes of that baseline are untyped, so they get the
    resolver's types. *)
Lemma builtin_global_attribute_types_witness :
  exists r s1,
    parseHtmlData (Externals := Demo.media) (baseline (X := Demo.media))
                  Demo.start = (Ok r, s1) /\
    Forall (live s1) (attrs r) /\
    exists c s' l a,
      getBuiltInHtmlCollection (X := Demo.media) Demo.start = (Ok c, s') /\
      attrs c = l ++ [a] /\
      Forall2 (fun a0 a' =>
                 name a' = name a0 /\
                 fst (call (getType a') s')
                 = Ok (if hasTypeForAttrName (Externals := Demo.media)
                            (name a0)
                          || SimpleTypeKind_eqb
                               (kind (resolved s1 (getType a0))) ANY
                       then html5TagAttrType (Externals := Demo.media)
                              (name a0)
                       else resolved s1 (getType a0)))
              (attrs r) l.
Proof.
  do 2 eexists. split; [vm_compute; reflexivity|].
  assert (H : forall A B : Prop, A -> (A -> B) -> A /\ B) by tauto.
  apply H; clear H.
  - repeat (apply Forall_cons; [unfold live; simpl; lia|]). apply Forall_nil.
  - apply (@builtin_global_attribute_types Demo.platform Demo.media
             Demo.start).
    vm_compute; reflexivity.
Defined.

(** A baseline whose tags have attributes and no events. *)
Lemma builtin_entities_marked_builtIn_witness :
  exists c s',
    getBuiltInHtmlCollection (X := Demo.eventless) Demo.start = (Ok c, s') /\
    (forall t, In t (tags c) ->
       tagBuiltIn t = Some true /\
       (forall a, In a (attributes t) -> builtIn a = Some true) /\
       (forall e, In e (events t) -> builtIn e = Some true)) /\
    (forall a, In a (attrs c) -> builtIn a = Some true) /\
    (forall e, In e (globalEvents c) -> builtIn e = Some true).
Proof.
  eapply (@builtin_entities_marked_builtIn Demo.platform Demo.eventless
            Demo.start).
  - vm_compute; reflexivity.
  - intros t [<-|[<-|[]]]; reflexivity.
Defined.

(** Three attributes, two of which are back-filled. *)
Lemma addMissingAttrTypes_only_changes_getType_witness :
  exists out s',
    addMissingAttrTypes (X := Demo.special) Demo.three_attrs Demo.three_cells
    = (Ok out, s') /\
    world s' = Demo.disk /\
    Forall2 (fun attr attr' =>
               mkind attr' = mkind attr /\ name attr' = name attr /\
               description attr' = description attr /\
               fromTagName attr' = fromTagName attr /\
               builtIn attr' = builtIn attr)
            Demo.three_attrs out.
Proof.
  do 2 eexists. split; [vm_compute; reflexivity|].
  eapply (@addMissingAttrTypes_only_changes_getType Demo.platform
            Demo.special Demo.three_attrs _ Demo.three_cells).
  vm_compute; reflexivity.
Defined.
